(** * drasken-go-lexer: a shallow embedding of [lexer/token.go] and
    [lexer/lexer.go], and the properties of the scanner stated over it.

    Go strings are byte sequences: a [gostring] is a [list ascii] (an
    [ascii] is exactly one byte).  Columns, line indices and lengths are Go
    [int]s that never leave the range [0 .. len(input) + 1], so they are
    modelled as [nat].  Run-time panics (index or slice bounds out of range)
    are explicit: every indexing goes through [index] or [slice], which
    return [Panic] out of range. *)

From Stdlib Require Import List Bool Arith Lia NArith Ascii Sorted.
From Stdlib Require String.
Import ListNotations.
Import String.StringSyntax.
Delimit Scope string_scope with string.

(* ------------------------------------------------------------------ *)
(** ** Outcomes of Go code *)

Inductive outcome (A : Type) : Type :=
| Ret (a : A)     (* normal return *)
| Panic           (* run-time panic: index or slice bounds out of range *)
| NoFuel.         (* the loop budget of the model ran out; never a Go behaviour *)

Arguments Ret {A} a.
Arguments Panic {A}.
Arguments NoFuel {A}.

Definition bind {A B : Type} (c : outcome A) (k : A -> outcome B) : outcome B :=
  match c with
  | Ret a => k a
  | Panic => Panic
  | NoFuel => NoFuel
  end.

Notation "x <- c ;; k" := (bind c (fun x => k))
  (at level 61, c at next level, right associativity).
Notation "' p <- c ;; k" := (bind c (fun x => let p := x in k))
  (at level 61, p pattern, c at next level, right associativity).

(* ------------------------------------------------------------------ *)
(** ** Bytes and strings *)

Definition gostring := list ascii.

(** A string constant of the source, as bytes. *)
Definition str (s : String.string) : gostring := String.list_ascii_of_string s.
Arguments str s%_string.

Definition code (c : ascii) : N := N_of_ascii c.

Definition LF : ascii := "010"%char.
Definition TAB : ascii := "009"%char.
Definition CR : ascii := "013"%char.
Definition SPACE : ascii := " "%char.
Definition BACKTICK : ascii := "`"%char.
Definition DQUOTE : ascii := "034"%char.
Definition SQUOTE : ascii := "'"%char.
Definition DOTCH : ascii := "."%char.
Definition EQCH : ascii := "="%char.

(** [s[i]]: panics when [i] is not below [len(s)]. *)
Definition index (s : gostring) (i : nat) : outcome ascii :=
  match nth_error s i with
  | Some c => Ret c
  | None => Panic
  end.

(** [s[lo:hi]]: panics unless [lo <= hi <= len(s)]. *)
Definition slice (s : gostring) (lo hi : nat) : outcome gostring :=
  if (lo <=? hi) && (hi <=? length s)
  then Ret (firstn (hi - lo) (skipn lo s))
  else Panic.

(** [string(ch)] for a [byte]: Go converts an integer to the UTF-8 encoding of
    that code point, so a byte of 0x80 and above becomes two bytes. *)
Definition byteToString (ch : ascii) : gostring :=
  if (code ch <? 128)%N then [ch]
  else [ascii_of_N (192 + code ch / 64); ascii_of_N (128 + code ch mod 64)].

Fixpoint streq (a b : gostring) : bool :=
  match a, b with
  | [], [] => true
  | x :: a', y :: b' => Ascii.eqb x y && streq a' b'
  | _, _ => false
  end.

(** [strings.HasPrefix]. *)
Fixpoint HasPrefix (s prefix : gostring) : bool :=
  match prefix, s with
  | [], _ => true
  | p :: prefix', c :: s' => Ascii.eqb c p && HasPrefix s' prefix'
  | _ :: _, [] => false
  end.

(** [strings.Split(s, "\n")]: the pieces between line feeds; never empty. *)
Fixpoint Split (s : gostring) : list gostring :=
  match s with
  | [] => [[]]
  | c :: s' =>
      if Ascii.eqb c LF then [] :: Split s'
      else match Split s' with
           | l :: ls => (c :: l) :: ls
           | [] => [[c]]
           end
  end.

(** *** [strings.TrimSpace]

    The library function removes leading and trailing white space "as
    defined by Unicode": the six ASCII bytes of its [asciiSpace] table and the
    runes U+0085, U+00A0, U+1680, U+2000..U+200A, U+2028, U+2029, U+202F,
    U+205F and U+3000, recognised through their UTF-8 encodings.  A byte that
    does not start a well-formed encoding decodes to U+FFFD, which is not
    white space, so trimming stops there. *)

Definition asciiSpace (c : ascii) : bool :=
  let n := code c in
  ((n =? 9) || (n =? 10) || (n =? 11) || (n =? 12) || (n =? 13) || (n =? 32))%N.

(** Second byte of a two-byte white-space rune led by 0xC2. *)
Definition space2 (b1 b2 : ascii) : bool :=
  ((code b1 =? 194) && ((code b2 =? 133) || (code b2 =? 160)))%N.

(** Three-byte white-space runes. *)
Definition space3 (b1 b2 b3 : ascii) : bool :=
  let n1 := code b1 in let n2 := code b2 in let n3 := code b3 in
  (((n1 =? 225) && (n2 =? 154) && (n3 =? 128))
   || ((n1 =? 226) && (n2 =? 128)
         && (((128 <=? n3) && (n3 <=? 138)) || (n3 =? 168) || (n3 =? 169) || (n3 =? 175)))
   || ((n1 =? 226) && (n2 =? 129) && (n3 =? 159))
   || ((n1 =? 227) && (n2 =? 128) && (n3 =? 128)))%N.

Fixpoint TrimLeftSpace (s : gostring) : gostring :=
  match s with
  | [] => []
  | b1 :: r1 =>
      if asciiSpace b1 then TrimLeftSpace r1
      else match r1 with
           | [] => s
           | b2 :: r2 =>
               if space2 b1 b2 then TrimLeftSpace r2
               else match r2 with
                    | [] => s
                    | b3 :: r3 => if space3 b1 b2 b3 then TrimLeftSpace r3 else s
                    end
           end
  end.

(** The same from the end, on the reversed string: the last rune is found by
    walking back to the byte that starts it. *)
Fixpoint TrimLeftSpaceRev (s : gostring) : gostring :=
  match s with
  | [] => []
  | b1 :: r1 =>
      if asciiSpace b1 then TrimLeftSpaceRev r1
      else match r1 with
           | [] => s
           | b2 :: r2 =>
               if space2 b2 b1 then TrimLeftSpaceRev r2
               else match r2 with
                    | [] => s
                    | b3 :: r3 => if space3 b3 b2 b1 then TrimLeftSpaceRev r3 else s
                    end
           end
  end.

Definition TrimRightSpace (s : gostring) : gostring :=
  rev (TrimLeftSpaceRev (rev s)).

Definition TrimSpace (s : gostring) : gostring :=
  TrimRightSpace (TrimLeftSpace s).

Definition isEmpty (s : gostring) : bool :=
  match s with [] => true | _ :: _ => false end.

(* ------------------------------------------------------------------ *)
(** ** token.go *)

(** Modelled from the spec: [token.go] as given declares no constant for the
    kind that [lexer.go] stores on back-quoted strings ([STRING]); the spec's
    enumeration lists it ([StringLiteral]) right after [Integer]. *)
Inductive TokenType : Type :=
| ILLEGAL | EOF
| IDENT | INT | STRING
| ASSIGN | PLUS | MINUS | ASTERISK | SLASH | PERCENT | EQ | LT | GT | BANG
| AND | OR | XOR
| DOT | COMMA | SEMICOLON | COLON | LPAREN | RPAREN | LBRACE | RBRACE
| LBRACKET | RBRACKET.

Record Token : Type := mkToken {
  Type_ : TokenType;   (* the field [Type] *)
  Literal : gostring;
  Start : nat;
  End_ : nat;          (* the field [End] *)
  Line : nat
}.

Definition isLetter (ch : ascii) : bool :=
  (("a" <=? ch) && (ch <=? "z"))%char || (("A" <=? ch) && (ch <=? "Z"))%char.

Definition isDigit (ch : ascii) : bool :=
  (("0" <=? ch) && (ch <=? "9"))%char.

Definition isOperator (ch : ascii) : bool :=
  existsb (Ascii.eqb ch) (str "+-*/%=<>!&|^").

Definition isPunctuation (ch : ascii) : bool :=
  existsb (Ascii.eqb ch) (str ".,;:(){}[]").

Definition isUnderscore (ch : ascii) : bool := Ascii.eqb ch "_".

Definition isWhitespace (ch : ascii) : bool :=
  Ascii.eqb ch SPACE || Ascii.eqb ch TAB || Ascii.eqb ch LF || Ascii.eqb ch CR.

Definition isAlphanumericOrUnderscore (ch : ascii) : bool :=
  isLetter ch || isDigit ch || isUnderscore ch.

(** The [case] arms of the [switch literal] in [GenerateNewToken], in source
    order; [None] is the [default] arm. *)
Definition switchLiteral (literal : gostring) : option TokenType :=
  if streq literal (str "+") then Some PLUS
  else if streq literal (str "-") then Some MINUS
  else if streq literal (str "*") then Some ASTERISK
  else if streq literal (str "/") then Some SLASH
  else if streq literal (str "%") then Some PERCENT
  else if streq literal (str "=") then Some ASSIGN
  else if streq literal (str "==") then Some EQ
  else if streq literal (str "<") then Some LT
  else if streq literal (str ">") then Some GT
  else if streq literal (str "!") then Some BANG
  else if streq literal (str "&") then Some AND
  else if streq literal (str "|") then Some OR
  else if streq literal (str "^") then Some XOR
  else if streq literal (str ".") then Some DOT
  else if streq literal (str ",") then Some COMMA
  else if streq literal (str ";") then Some SEMICOLON
  else if streq literal (str ":") then Some COLON
  else if streq literal (str "(") then Some LPAREN
  else if streq literal (str ")") then Some RPAREN
  else if streq literal (str "{") then Some LBRACE
  else if streq literal (str "}") then Some RBRACE
  else if streq literal (str "[") then Some LBRACKET
  else if streq literal (str "]") then Some RBRACKET
  else None.

(** The kind-determination part of [GenerateNewToken]: the [switch] with its
    [default] arm, which reads [literal[0]]. *)
Definition tokenTypeOf (literal : gostring) : outcome TokenType :=
  match switchLiteral literal with
  | Some t => Ret t
  | None =>
      c <- index literal 0 ;;
      if isDigit c then Ret INT
      else if isLetter c || isUnderscore c then Ret IDENT
      else Ret ILLEGAL
  end.

Definition GenerateNewToken (literal : gostring) (start end_ line : nat)
  : outcome Token :=
  tokenType <- tokenTypeOf literal ;;
  Ret (mkToken tokenType literal start end_ line).

(* ------------------------------------------------------------------ *)
(** ** lexer.go *)

Record DraskenLexer : Type := mkLexer {
  input : gostring;
  position : nat;                  (* never read or written by the scanner *)
  ch : ascii;                      (* never read or written by the scanner *)
  commentPrefixes : list gostring;
  columnPosition : nat;
  linePosition : nat
}.

Definition NewLexer (input : gostring) (commentPrefixes : list gostring)
  : DraskenLexer :=
  mkLexer input 0 zero commentPrefixes 0 0.

(** [l.columnPosition = c] and [l.linePosition = n]. *)
Definition setColumn (l : DraskenLexer) (c : nat) : DraskenLexer :=
  mkLexer (input l) (position l) (ch l) (commentPrefixes l) c (linePosition l).

Definition setLine (l : DraskenLexer) (n : nat) : DraskenLexer :=
  mkLexer (input l) (position l) (ch l) (commentPrefixes l) (columnPosition l) n.

(** [shouldSkipLine]: the [range] over the prefixes returns at the first hit. *)
Definition shouldSkipLine (l : DraskenLexer) (line : gostring) : bool :=
  let trimmed := TrimSpace line in
  existsb (fun prefix => HasPrefix trimmed prefix) (commentPrefixes l).

(** *** The loops of [generateLiteral]

    Each loop walks an index [i] while [i < len(line)]; the model recurses on
    the rest of the line from [i] (so [rest = line[i:]], the head of [rest] is
    [line[i]], and [rest = []] is [i >= len(line)]) and returns the final [i]. *)

(** [for i < len(line) { if line[i] == quote { i++; break }; i++ }] *)
Fixpoint quoteLoop (quote : ascii) (rest : gostring) (i : nat) : nat :=
  match rest with
  | [] => i
  | c :: rest' =>
      if Ascii.eqb c quote then S i else quoteLoop quote rest' (S i)
  end.

(** The number loop, with its [hasDot] flag. *)
Fixpoint numberLoop (rest : gostring) (hasDot : bool) (i : nat) : nat :=
  match rest with
  | [] => i
  | c :: rest' =>
      if Ascii.eqb c DOTCH then
        if hasDot then i else numberLoop rest' true (S i)
      else if negb (isDigit c) then i
      else numberLoop rest' hasDot (S i)
  end.

(** [for i < len(line) && isAlphanumericOrUnderscore(line[i]) { i++ }] *)
Fixpoint identLoop (rest : gostring) (i : nat) : nat :=
  match rest with
  | [] => i
  | c :: rest' =>
      if isAlphanumericOrUnderscore c then identLoop rest' (S i) else i
  end.

(** [start+1 < len(line) && p(line[start+1])] *)
Definition nextIs (p : ascii -> bool) (line : gostring) (start : nat) : bool :=
  match nth_error line (S start) with
  | Some c => p c
  | None => false
  end.

(** [generateLiteral]: the literal and the lexer with its column advanced. *)
Definition generateLiteral (l : DraskenLexer) (line : gostring)
  : outcome (gostring * DraskenLexer) :=
  let start := columnPosition l in
  ch <- index line start ;;
  if Ascii.eqb ch DQUOTE || Ascii.eqb ch SQUOTE then
    let quote := ch in
    let i := quoteLoop quote (skipn (start + 1) line) (start + 1) in
    let l := setColumn l i in
    lit <- slice line start (columnPosition l) ;;
    Ret (lit, l)
  else if isDigit ch || (Ascii.eqb ch DOTCH && nextIs isDigit line start) then
    let i := numberLoop (skipn start line) false start in
    let l := setColumn l i in
    lit <- slice line start i ;;
    Ret (lit, l)
  else if isLetter ch || Ascii.eqb ch "_" then
    let i := identLoop (skipn start line) start in
    let l := setColumn l i in
    lit <- slice line start i ;;
    Ret (lit, l)
  else if isOperator ch then
    if Ascii.eqb ch EQCH && nextIs (fun c => Ascii.eqb c EQCH) line start then
      Ret (str "==", setColumn l (columnPosition l + 2))
    else
      Ret (byteToString ch, setColumn l (columnPosition l + 1))
  else if isPunctuation ch then
    Ret (byteToString ch, setColumn l (columnPosition l + 1))
  else
    Ret (byteToString ch, setColumn l (columnPosition l + 1)).

(** *** The back-quoted string of [GenerateTokens]

    [rawLine] is the inner [for l.columnPosition < len(line)] over one line,
    on the rest of that line from the column; it returns the content, the
    column and [terminated]. *)
Fixpoint rawLine (rest : gostring) (content : gostring) (col : nat)
  : gostring * nat * bool :=
  match rest with
  | [] => (content, col, false)
  | c :: rest' =>
      if Ascii.eqb c BACKTICK then (content ++ [BACKTICK], S col, true)
      else rawLine rest' (content ++ [c]) (S col)
  end.

(** [for !terminated && l.linePosition < len(lines)], on the lines from
    [l.linePosition] on ([remaining = lines[l.linePosition:]], empty exactly
    when the line cursor is past the last line).  Returns the content and the
    line and column cursors. *)
Fixpoint rawLoop (remaining : list gostring) (content : gostring)
  (linePos col : nat) : gostring * nat * nat :=
  match remaining with
  | [] => (content, linePos, col)
  | line :: remaining' =>
      let '(content, col, terminated) := rawLine (skipn col line) content col in
      if terminated then (content, linePos, col)
      else rawLoop remaining' (content ++ [LF]) (S linePos) 0
  end.

(** One turn of the loop [for l.columnPosition < lineLen], entered with the
    column below [len(line)].  [line] is the variable of the enclosing loop:
    it is not reassigned when a back-quoted string moves the line cursor. *)
Definition scanStep (lines : list gostring) (line : gostring)
  (l : DraskenLexer) (tokens : list Token)
  : outcome (DraskenLexer * list Token) :=
  ch <- index line (columnPosition l) ;;
  if isWhitespace ch then
    Ret (setColumn l (columnPosition l + 1), tokens)
  else if Ascii.eqb ch BACKTICK then
    let startLine := linePosition l in
    let startColumn := columnPosition l in
    let '(content, linePos, col) :=
      rawLoop (skipn (linePosition l) lines) [BACKTICK]
              (linePosition l) (columnPosition l + 1) in
    let l := setColumn (setLine l linePos) col in
    Ret (l, tokens ++ [mkToken STRING content startColumn (columnPosition l) startLine])
  else
    let literalStart := columnPosition l in
    '(literal, l) <- generateLiteral l line ;;
    if negb (isEmpty (TrimSpace literal)) then
      token <- GenerateNewToken literal literalStart (columnPosition l) (linePosition l) ;;
      Ret (l, tokens ++ [token])
    else Ret (l, tokens).

(** [for l.columnPosition < lineLen { ... }] with [lineLen = len(line)]. *)
Fixpoint scanLine (fuel : nat) (lines : list gostring) (line : gostring)
  (l : DraskenLexer) (tokens : list Token)
  : outcome (DraskenLexer * list Token) :=
  match fuel with
  | 0 => NoFuel
  | S fuel' =>
      if columnPosition l <? length line then
        '(l, tokens) <- scanStep lines line l tokens ;;
        scanLine fuel' lines line l tokens
      else Ret (l, tokens)
  end.

(** Turns that [scanLine] can take from a state: a turn either moves the
    column forward on the same line cursor, or moves the line cursor forward. *)
Definition lineFuel (lines : list gostring) (line : gostring)
  (l : DraskenLexer) : nat :=
  S ((length lines - linePosition l) * S (length line)
     + (length line - columnPosition l)).

(** One turn of [for l.linePosition < len(lines)], entered with the line
    cursor in range. *)
Definition lineStep (lines : list gostring) (l : DraskenLexer)
  (tokens : list Token) : outcome (DraskenLexer * list Token) :=
  match nth_error lines (linePosition l) with
  | None => Panic
  | Some line =>
      if shouldSkipLine l line then
        Ret (setLine l (linePosition l + 1), tokens)
      else
        let l := setColumn l 0 in
        '(l, tokens) <- scanLine (lineFuel lines line l) lines line l tokens ;;
        Ret (setLine l (linePosition l + 1), tokens)
  end.

Fixpoint scanLines (fuel : nat) (lines : list gostring) (l : DraskenLexer)
  (tokens : list Token) : outcome (DraskenLexer * list Token) :=
  match fuel with
  | 0 => NoFuel
  | S fuel' =>
      if linePosition l <? length lines then
        '(l, tokens) <- lineStep lines l tokens ;;
        scanLines fuel' lines l tokens
      else Ret (l, tokens)
  end.

(** [GenerateTokens]: the returned slice and the receiver as the call leaves
    it. *)
Definition GenerateTokens (l : DraskenLexer)
  : outcome (list Token * DraskenLexer) :=
  let tokens := [] in
  let lines := Split (input l) in
  '(l, tokens) <- scanLines (S (length lines - linePosition l)) lines l tokens ;;
  let tokens :=
    tokens ++ [mkToken EOF [] (columnPosition l) (columnPosition l) (linePosition l)] in
  Ret (tokens, l).

(** The scan of a fresh lexer: [NewLexer(input, prefixes).GenerateTokens()]. *)
Definition tokenize (input : gostring) (prefixes : list gostring)
  : outcome (list Token) :=
  '(tokens, _) <- GenerateTokens (NewLexer input prefixes) ;;
  Ret tokens.

(* ------------------------------------------------------------------ *)
(** ** Notions used to state the properties *)

(** A token appended by the scan, before the final [EOF]: a back-quoted
    string (its end column is past its start unless it crossed a line feed),
    or a classified literal that takes at least one column. *)
Inductive emitted : Token -> Prop :=
| emitted_raw (content : gostring) (s e ln : nat) :
    s < e \/ In LF content ->
    emitted (mkToken STRING content s e ln)
| emitted_literal (literal : gostring) (t : TokenType) (s e ln : nat) :
    tokenTypeOf literal = Ret t ->
    s < e ->
    emitted (mkToken t literal s e ln).

(** The dispatch of the scanner on the byte under the cursor falls through
    every class: not white space, back quote, quote, digit, letter,
    underscore, operator or punctuation. *)
Definition noOtherClass (c : ascii) : bool :=
  negb (isWhitespace c)
  && negb (Ascii.eqb c BACKTICK)
  && negb (Ascii.eqb c DQUOTE || Ascii.eqb c SQUOTE)
  && negb (isDigit c)
  && negb (isLetter c || Ascii.eqb c "_")
  && negb (isOperator c)
  && negb (isPunctuation c).

(** Vertical tab, form feed, and the bytes 0x85 and 0xA0 (whose [string(ch)]
    is the encoding of U+0085 and of U+00A0). *)
Definition trimmedAway (c : ascii) : bool :=
  ((code c =? 11) || (code c =? 12) || (code c =? 133) || (code c =? 160))%N.

(** The operator and punctuation symbol table, as the specification words it:
    each symbol with its fixed kind. *)
Definition symbolTable : list (gostring * TokenType) :=
  [ (str "+", PLUS); (str "-", MINUS); (str "*", ASTERISK); (str "/", SLASH);
    (str "%", PERCENT); (str "=", ASSIGN); (str "==", EQ); (str "<", LT);
    (str ">", GT); (str "!", BANG); (str "&", AND); (str "|", OR);
    (str "^", XOR); (str ".", DOT); (str ",", COMMA); (str ";", SEMICOLON);
    (str ":", COLON); (str "(", LPAREN); (str ")", RPAREN); (str "{", LBRACE);
    (str "}", RBRACE); (str "[", LBRACKET); (str "]", RBRACKET) ].

Definition lookupSymbol (literal : gostring) : option TokenType :=
  match find (fun entry => streq literal (fst entry)) symbolTable with
  | Some entry => Some (snd entry)
  | None => None
  end.

(** The classification as the specification words it, written without the
    predicates and the string comparison of the code: the symbols with their
    kinds, compared as whole strings; the digits and the letters listed. *)
Definition specSymbols : list (String.string * TokenType) :=
  [ ("+", PLUS); ("-", MINUS); ("*", ASTERISK); ("/", SLASH); ("%", PERCENT);
    ("=", ASSIGN); ("==", EQ); ("<", LT); (">", GT); ("!", BANG); ("&", AND);
    ("|", OR); ("^", XOR); (".", DOT); (",", COMMA); (";", SEMICOLON);
    (":", COLON); ("(", LPAREN); (")", RPAREN); ("{", LBRACE); ("}", RBRACE);
    ("[", LBRACKET); ("]", RBRACKET) ]%string.

Definition specLookup (literal : gostring) : option TokenType :=
  match find (fun entry =>
                String.eqb (String.string_of_list_ascii literal) (fst entry))
             specSymbols with
  | Some entry => Some (snd entry)
  | None => None
  end.

Definition specDigit (c : ascii) : bool :=
  existsb (Ascii.eqb c) (str "0123456789").

Definition specLetter (c : ascii) : bool :=
  existsb (Ascii.eqb c)
    (str "abcdefghijklmnopqrstuvwxyzABCDEFGHIJKLMNOPQRSTUVWXYZ").

Definition specFirstCharacter (c : ascii) : TokenType :=
  if specDigit c then INT
  else if specLetter c || Ascii.eqb c "_" then IDENT
  else ILLEGAL.

(** Exact match in the table, else the first character alone. *)
Definition classifySpec (literal : gostring) : TokenType :=
  match specLookup literal with
  | Some k => k
  | None => specFirstCharacter (hd zero literal)
  end.

(** A line that holds only the white space of the scanner (space, tab,
    carriage return; a line of [Split] holds no line feed), or nothing. *)
Definition blankLine (line : gostring) : bool := forallb isWhitespace line.

(** The token sits on an existing line that is neither skipped as a comment
    nor blank. *)
Definition onScannedLine (prefixes : list gostring) (lines : list gostring)
  (t : Token) : Prop :=
  exists line,
    nth_error lines (Line t) = Some line
    /\ existsb (fun prefix => HasPrefix (TrimSpace line) prefix) prefixes = false
    /\ blankLine line = false.

(** The literal that [generateLiteral] returns for the bytes [w] it consumed:
    the bytes themselves ([line[start:i]], or the constant [==]), except that
    a single byte goes through [string(ch)]. *)
Definition textOf (w : gostring) : gostring :=
  match w with
  | [c] => byteToString c
  | _ => w
  end.

(** [line[lo:hi]] where it is known to be in range. *)
Definition sub (line : gostring) (lo hi : nat) : gostring :=
  firstn (hi - lo) (skipn lo line).

(** A byte of a number literal. *)
Definition isNumberByte (b : ascii) : bool := isDigit b || Ascii.eqb b DOTCH.

(** Number of decimal points in a literal. *)
Definition dots (w : gostring) : nat := length (filter (Ascii.eqb DOTCH) w).

(** A byte that the column loop passes over without a token: the white space
    of [isWhitespace], or a byte whose one-byte literal [TrimSpace] empties. *)
Definition ignorable (b : ascii) : bool := isWhitespace b || trimmedAway b.

(** The tokens [ts] tile [line] from column [from]: each sits on line [lp],
    starts at or after the end of the one before, spans at least one column
    inside the line, carries the text of the bytes it spans and the kind the
    classifier gives to that text; every byte between and after them is
    ignorable. *)
Fixpoint tiled (line : gostring) (lp from : nat) (ts : list Token) : Prop :=
  match ts with
  | [] => forallb ignorable (skipn from line) = true
  | t :: ts' =>
      Line t = lp
      /\ from <= Start t
      /\ forallb ignorable (sub line from (Start t)) = true
      /\ Start t < End_ t <= length line
      /\ Literal t = textOf (sub line (Start t) (End_ t))
      /\ tokenTypeOf (Literal t) = Ret (Type_ t)
      /\ tiled line lp (End_ t) ts'
  end.

(** [shouldSkipLine] as a function of the prefix list. *)
Definition skipped (prefixes : list gostring) (line : gostring) : bool :=
  existsb (fun prefix => HasPrefix (TrimSpace line) prefix) prefixes.

(** The tokens [ts] are the tiles of the lines, in order, line [lp] first; a
    skipped line has none. *)
Fixpoint tiledLines (prefixes : list gostring) (lines : list gostring)
  (lp : nat) (ts : list Token) : Prop :=
  match lines with
  | [] => ts = []
  | line :: rest =>
      exists here later,
        ts = here ++ later
        /\ (if skipped prefixes line then here = [] else tiled line lp 0 here)
        /\ tiledLines prefixes rest (S lp) later
  end.

(** The column cursor after the lines: the length of the last line that is
    not skipped, or the column before them when all are skipped. *)
Fixpoint finalColumn (prefixes : list gostring) (lines : list gostring)
  (col : nat) : nat :=
  match lines with
  | [] => col
  | line :: rest =>
      finalColumn prefixes rest (if skipped prefixes line then col else length line)
  end.

(** [t1] ends before [t2] starts: on an earlier line, or on the same line at
    or before its start column. *)
Definition before (t1 t2 : Token) : Prop :=
  Line t1 < Line t2 \/ (Line t1 = Line t2 /\ End_ t1 <= Start t2).

(** The bytes [TrimSpace] does not count as ASCII white space. *)
Definition visible (b : ascii) : bool := negb (asciiSpace b).

Definition isASCII (b : ascii) : bool := (code b <? 128)%N.

(** The lines that are not skipped as comments. *)
Definition keptLines (prefixes : list gostring) (lines : list gostring)
  : list gostring :=
  filter (fun line => negb (skipped prefixes line)) lines.

(** The tests of the dispatch on the byte [c = line[start]], in the order the
    scanner makes them: white space and back quote in [GenerateTokens], then
    quote, number (a digit, or a point with a digit after it), letter or
    underscore, operator and punctuation in [generateLiteral]. *)
Definition classTests (line : gostring) (start : nat) (c : ascii) : list bool :=
  [ isWhitespace c;
    Ascii.eqb c BACKTICK;
    Ascii.eqb c DQUOTE || Ascii.eqb c SQUOTE;
    isDigit c || (Ascii.eqb c DOTCH && nextIs isDigit line start);
    isLetter c || Ascii.eqb c "_";
    isOperator c;
    isPunctuation c ].

(** The content a back-quoted string takes from whole lines: each line and
    the line feed written after it. *)
Definition withLineFeeds (lines : list gostring) : gostring :=
  concat (map (fun line => line ++ [LF]) lines).

(** [a] is on the line of [b] or on an earlier one. *)
Definition lineOrdered (a b : Token) : Prop := Line a <= Line b.

(** A token appended while the line cursor went from [lp] to [lp']: its line
    lies between the two, its literal is not empty, and if its kind is
    [STRING] its literal begins with a back quote. *)
Definition inSpan (lp lp' : nat) (t : Token) : Prop :=
  lp <= Line t <= lp'
  /\ Literal t <> []
  /\ (Type_ t = STRING -> exists w, Literal t = BACKTICK :: w).

(* ------------------------------------------------------------------ *)
(** ** Basic facts on bytes, indexing and slices *)

Lemma streq_eq (a b : gostring) : streq a b = true <-> a = b.
Proof.
  revert b; induction a as [|x a IH]; intros [|y b]; simpl;
    split; intro H; try discriminate; try reflexivity.
  - apply andb_true_iff in H as [Hx Ha].
    apply Ascii.eqb_eq in Hx. apply IH in Ha. congruence.
  - injection H as -> ->. rewrite Ascii.eqb_refl. simpl. now apply IH.
Qed.

Lemma index_Ret (s : gostring) (i : nat) (c : ascii) :
  nth_error s i = Some c -> index s i = Ret c.
Proof. unfold index; now intros ->. Qed.

Lemma index_lt (s : gostring) (i : nat) :
  i < length s -> exists c, nth_error s i = Some c /\ index s i = Ret c.
Proof.
  intro H. destruct (nth_error s i) as [c|] eqn:E.
  - exists c; split; [reflexivity | now apply index_Ret].
  - apply nth_error_None in E; lia.
Qed.

Lemma skipn_nth_error (A : Type) (s : list A) (i : nat) (c : A) :
  nth_error s i = Some c -> skipn i s = c :: skipn (S i) s.
Proof.
  revert i; induction s as [|x s IH]; intros [|i] H; simpl in *;
    try discriminate.
  - now injection H as ->.
  - now apply IH.
Qed.

Lemma slice_Ret (s : gostring) (lo hi : nat) :
  lo <= hi -> hi <= length s ->
  slice s lo hi = Ret (firstn (hi - lo) (skipn lo s)).
Proof.
  intros H1 H2. unfold slice.
  apply Nat.leb_le in H1, H2. now rewrite H1, H2.
Qed.

Lemma slice_length (s : gostring) (lo hi : nat) :
  lo <= hi -> hi <= length s ->
  length (firstn (hi - lo) (skipn lo s)) = hi - lo.
Proof.
  intros H1 H2. rewrite length_firstn, length_skipn. lia.
Qed.

Lemma byteToString_nonempty (c : ascii) : byteToString c <> [].
Proof. unfold byteToString; destruct (code c <? 128)%N; discriminate. Qed.

(* ------------------------------------------------------------------ *)
(** ** The loops of [generateLiteral] stay on the line and move forward *)

Lemma quoteLoop_bounds (q : ascii) (rest : gostring) (i : nat) :
  i <= quoteLoop q rest i <= i + length rest.
Proof.
  revert i; induction rest as [|c rest IH]; intro i; simpl; [lia|].
  destruct (Ascii.eqb c q); [lia|]. specialize (IH (S i)). lia.
Qed.

Lemma numberLoop_bounds (rest : gostring) (hasDot : bool) (i : nat) :
  i <= numberLoop rest hasDot i <= i + length rest.
Proof.
  revert hasDot i; induction rest as [|c rest IH]; intros hasDot i; simpl; [lia|].
  destruct (Ascii.eqb c DOTCH).
  - destruct hasDot; [lia|]. specialize (IH true (S i)). lia.
  - destruct (isDigit c); simpl; [|lia]. specialize (IH hasDot (S i)). lia.
Qed.

Lemma identLoop_bounds (rest : gostring) (i : nat) :
  i <= identLoop rest i <= i + length rest.
Proof.
  revert i; induction rest as [|c rest IH]; intro i; simpl; [lia|].
  destruct (isAlphanumericOrUnderscore c); [|lia]. specialize (IH (S i)). lia.
Qed.

Lemma numberLoop_first (c : ascii) (rest : gostring) (i : nat) :
  isDigit c || Ascii.eqb c DOTCH = true ->
  S i <= numberLoop (c :: rest) false i.
Proof.
  intro H. simpl. destruct (Ascii.eqb c DOTCH) eqn:E.
  - apply (numberLoop_bounds rest true (S i)).
  - rewrite orb_false_r in H. rewrite H. simpl.
    apply (numberLoop_bounds rest false (S i)).
Qed.

Lemma identLoop_first (c : ascii) (rest : gostring) (i : nat) :
  isLetter c || Ascii.eqb c "_" = true ->
  S i <= identLoop (c :: rest) i.
Proof.
  intro H. simpl.
  assert (E : isAlphanumericOrUnderscore c = true).
  { unfold isAlphanumericOrUnderscore, isUnderscore.
    apply orb_true_iff in H as [H|H]; rewrite H; simpl;
      [reflexivity | apply orb_true_r]. }
  rewrite E. apply (identLoop_bounds rest (S i)).
Qed.

Lemma nextIs_lt (p : ascii -> bool) (line : gostring) (start : nat) :
  nextIs p line start = true -> S start < length line.
Proof.
  unfold nextIs. destruct (nth_error line (S start)) eqn:E; [|discriminate].
  intros _. apply nth_error_Some. congruence.
Qed.

(** [generateLiteral], entered with the column on the line, returns a
    non-empty literal and only moves the column, forward and at most to the
    end of the line. *)
Lemma generateLiteral_ok (l : DraskenLexer) (line : gostring) :
  columnPosition l < length line ->
  exists lit c',
    generateLiteral l line = Ret (lit, setColumn l c')
    /\ columnPosition l < c' <= length line
    /\ lit <> [].
Proof.
  intro Hlt. destruct (index_lt line _ Hlt) as (c & Hn & Hi).
  unfold generateLiteral. rewrite Hi. cbn [bind].
  pose proof (skipn_nth_error _ _ _ _ Hn) as Hsk.
  assert (Hlen : length (skipn (S (columnPosition l)) line)
                 = length line - S (columnPosition l)) by apply length_skipn.
  destruct (Ascii.eqb c DQUOTE || Ascii.eqb c SQUOTE).
  { rewrite Nat.add_1_r.
    pose proof (quoteLoop_bounds c (skipn (S (columnPosition l)) line)
                  (S (columnPosition l))) as B.
    set (i := quoteLoop _ _ _) in *. cbn [columnPosition setColumn].
    rewrite slice_Ret by lia. cbn [bind].
    eexists _, i; split; [reflexivity|]. split; [lia|].
    intro E. apply (f_equal (@length _)) in E.
    rewrite slice_length in E by lia. simpl in E; lia. }
  destruct (isDigit c || (Ascii.eqb c DOTCH && nextIs isDigit line (columnPosition l))) eqn:Enum.
  { rewrite Hsk.
    assert (Hfirst : isDigit c || Ascii.eqb c DOTCH = true).
    { apply orb_true_iff in Enum as [H|H]; [now rewrite H|].
      apply andb_true_iff in H as [H _]. rewrite H. apply orb_true_r. }
    pose proof (numberLoop_first c (skipn (S (columnPosition l)) line)
                  (columnPosition l) Hfirst) as B1.
    pose proof (numberLoop_bounds (c :: skipn (S (columnPosition l)) line)
                  false (columnPosition l)) as B2.
    set (i := numberLoop _ _ _) in *. cbn [length] in B2.
    rewrite slice_Ret by lia. cbn [bind].
    eexists _, i; split; [reflexivity|]. split; [lia|].
    intro E. apply (f_equal (@length _)) in E.
    rewrite slice_length in E by lia. simpl in E; lia. }
  destruct (isLetter c || Ascii.eqb c "_") eqn:Eid.
  { rewrite Hsk.
    pose proof (identLoop_first c (skipn (S (columnPosition l)) line)
                  (columnPosition l) Eid) as B1.
    pose proof (identLoop_bounds (c :: skipn (S (columnPosition l)) line)
                  (columnPosition l)) as B2.
    set (i := identLoop _ _) in *. cbn [length] in B2.
    rewrite slice_Ret by lia. cbn [bind].
    eexists _, i; split; [reflexivity|]. split; [lia|].
    intro E. apply (f_equal (@length _)) in E.
    rewrite slice_length in E by lia. simpl in E; lia. }
  destruct (isOperator c).
  { destruct (Ascii.eqb c EQCH && nextIs (fun c0 => Ascii.eqb c0 EQCH) line (columnPosition l)) eqn:Eeq.
    - apply andb_true_iff in Eeq as [_ Hnext]. apply nextIs_lt in Hnext.
      eexists _, _; split; [reflexivity|]. split; [lia | discriminate].
    - eexists _, _; split; [reflexivity|].
      split; [lia | apply byteToString_nonempty]. }
  destruct (isPunctuation c);
    (eexists _, _; split; [reflexivity|];
     split; [lia | apply byteToString_nonempty]).
Qed.

Lemma quoteLoop_unterminated (q : ascii) (rest : gostring) (i : nat) :
  ~ In q rest -> quoteLoop q rest i = i + length rest.
Proof.
  revert i; induction rest as [|c rest IH]; intros i Hn; simpl; [lia|].
  destruct (Ascii.eqb c q) eqn:E.
  - apply Ascii.eqb_eq in E. exfalso. apply Hn. now left.
  - rewrite IH; [lia|]. intro H. apply Hn. now right.
Qed.

(** A quoted string is a slice of the line it starts on: the literal is
    [line[start:i]] with [i] at most the length of the line, the line cursor
    is not touched, and without a closing quote on the line [i] is the length
    of the line. *)
Lemma generateLiteral_quoted (l : DraskenLexer) (line : gostring) (q : ascii) :
  nth_error line (columnPosition l) = Some q ->
  q = DQUOTE \/ q = SQUOTE ->
  exists i,
    generateLiteral l line
    = Ret (firstn (i - columnPosition l) (skipn (columnPosition l) line),
           setColumn l i)
    /\ columnPosition l < i <= length line
    /\ (~ In q (skipn (S (columnPosition l)) line) -> i = length line).
Proof.
  intros Hn Hq.
  assert (Hlt : columnPosition l < length line)
    by (apply nth_error_Some; congruence).
  assert (E : Ascii.eqb q DQUOTE || Ascii.eqb q SQUOTE = true)
    by (destruct Hq as [-> | ->]; reflexivity).
  unfold generateLiteral. rewrite (index_Ret _ _ _ Hn). cbn [bind].
  rewrite E, Nat.add_1_r.
  pose proof (quoteLoop_bounds q (skipn (S (columnPosition l)) line)
                (S (columnPosition l))) as B.
  pose proof (quoteLoop_unterminated q (skipn (S (columnPosition l)) line)
                (S (columnPosition l))) as U.
  rewrite length_skipn in B, U.
  set (i := quoteLoop _ _ _) in *. cbn [columnPosition setColumn].
  rewrite slice_Ret by lia. cbn [bind].
  exists i. split; [reflexivity|]. split; [lia|].
  intro H. rewrite (U H). lia.
Qed.

(* ------------------------------------------------------------------ *)
(** ** The classifier *)

Lemma switchLiteral_kind (literal : gostring) (t : TokenType) :
  switchLiteral literal = Some t -> t <> EOF /\ t <> STRING.
Proof.
  unfold switchLiteral.
  repeat match goal with
         | |- (if ?b then _ else _) = _ -> _ =>
             destruct b; [intro H; injection H as <-; split; discriminate|]
         end.
  discriminate.
Qed.

Lemma tokenTypeOf_kind (literal : gostring) (t : TokenType) :
  tokenTypeOf literal = Ret t -> t <> EOF /\ t <> STRING.
Proof.
  unfold tokenTypeOf. destruct (switchLiteral literal) as [k|] eqn:E.
  - intro H; injection H as <-. now apply switchLiteral_kind with literal.
  - destruct literal as [|c r]; [discriminate|]. cbn.
    destruct (isDigit c); [|destruct (isLetter c || isUnderscore c)];
      intro H; injection H as <-; split; discriminate.
Qed.

Lemma tokenTypeOf_total (literal : gostring) :
  literal <> [] -> exists t, tokenTypeOf literal = Ret t.
Proof.
  intro H. unfold tokenTypeOf. destruct (switchLiteral literal) as [k|].
  - now exists k.
  - destruct literal as [|c r]; [contradiction|]. cbn.
    destruct (isDigit c); [|destruct (isLetter c || isUnderscore c)];
      eexists; reflexivity.
Qed.

Lemma TrimSpace_guard (literal : gostring) :
  isEmpty (TrimSpace literal) = false -> literal <> [].
Proof. intros H ->. discriminate. Qed.

(* ------------------------------------------------------------------ *)
(** ** The back-quoted string loops *)

Lemma rawLine_spec (rest content : gostring) (col : nat) :
  exists suffix col' terminated,
    rawLine rest content col = (content ++ suffix, col', terminated)
    /\ col <= col'
    /\ (terminated = true -> col < col').
Proof.
  revert content col; induction rest as [|c rest IH]; intros content col; simpl.
  - exists [], col, false. rewrite app_nil_r. repeat split; [lia | discriminate].
  - destruct (Ascii.eqb c BACKTICK).
    + exists [BACKTICK], (S col), true. repeat split; lia.
    + destruct (IH (content ++ [c]) (S col)) as (sf & col' & tm & E & B1 & B2).
      exists (c :: sf), col', tm. rewrite E, <- app_assoc. simpl.
      repeat split; [lia | intro H; specialize (B2 H); lia].
Qed.

(** The loop leaves the line cursor where it was with the column moved
    forward, or moves the line cursor forward (at most past the last line) and
    then the content holds a line feed. *)
Lemma rawLoop_spec (remaining : list gostring) (content : gostring)
  (linePos col : nat) :
  exists suffix linePos' col',
    rawLoop remaining content linePos col = (content ++ suffix, linePos', col')
    /\ linePos' <= linePos + length remaining
    /\ ((linePos' = linePos /\ col <= col')
        \/ (linePos < linePos' /\ In LF suffix)).
Proof.
  revert content linePos col;
    induction remaining as [|line remaining IH]; intros content linePos col; simpl.
  - exists [], linePos, col. rewrite app_nil_r. split; [reflexivity|].
    split; [lia | left; split; [reflexivity | lia]].
  - destruct (rawLine_spec (skipn col line) content col)
      as (sf & col1 & tm & E & B1 & B2). rewrite E.
    destruct tm.
    + exists sf, linePos, col1. split; [reflexivity|].
      split; [lia | left; split; [reflexivity | lia]].
    + destruct (IH ((content ++ sf) ++ [LF]) (S linePos) 0)
        as (sf' & lp' & col' & E' & B1' & B2').
      exists (sf ++ LF :: sf'), lp', col'. rewrite E'.
      split; [f_equal; f_equal; now rewrite <- !app_assoc|].
      split; [lia|]. right. split.
      * destruct B2' as [[-> _]|[H _]]; lia.
      * apply in_or_app; right; now left.
Qed.

(* ------------------------------------------------------------------ *)
(** ** What the scan loops append *)

Lemma lineFuel_raw (lines : list gostring) (line : gostring)
  (l : DraskenLexer) (lp' col' : nat) :
  columnPosition l < length line ->
  lp' <= linePosition l + length (skipn (linePosition l) lines) ->
  (lp' = linePosition l /\ columnPosition l + 1 <= col') \/ linePosition l < lp' ->
  lineFuel lines line (setColumn (setLine l lp') col') < lineFuel lines line l.
Proof.
  intros Hc Hb Hcase. rewrite length_skipn in Hb.
  unfold lineFuel; cbn [linePosition columnPosition setColumn setLine].
  destruct Hcase as [[-> Hcol]|Hlp]; [lia|].
  assert (Hd : length lines - lp' <= length lines - linePosition l - 1) by lia.
  assert (Hp : 1 <= length lines - linePosition l) by lia.
  nia.
Qed.

(** One turn of the column loop never panics, appends zero or one token,
    spends fuel, never moves the line cursor back and keeps the prefixes. *)
Lemma scanStep_ok (lines : list gostring) (line : gostring)
  (l : DraskenLexer) (tokens : list Token) :
  columnPosition l < length line ->
  exists l' new,
    scanStep lines line l tokens = Ret (l', tokens ++ new)
    /\ Forall emitted new
    /\ lineFuel lines line l' < lineFuel lines line l
    /\ linePosition l <= linePosition l'
    /\ commentPrefixes l' = commentPrefixes l.
Proof.
  intro Hlt. destruct (index_lt line _ Hlt) as (c & Hn & Hi).
  unfold scanStep. rewrite Hi. cbn [bind].
  destruct (isWhitespace c).
  { exists (setColumn l (columnPosition l + 1)), []. rewrite app_nil_r.
    split; [reflexivity|]. split; [constructor|].
    unfold lineFuel; cbn [linePosition columnPosition setColumn].
    repeat split; lia. }
  destruct (Ascii.eqb c BACKTICK).
  { destruct (rawLoop_spec (skipn (linePosition l) lines) [BACKTICK]
                (linePosition l) (columnPosition l + 1))
      as (sf & lp' & col' & E & B1 & B2).
    rewrite E. cbn [columnPosition setColumn setLine].
    eexists _, [_]. split; [reflexivity|]. split.
    - constructor; [|constructor]. constructor.
      destruct B2 as [[_ H]|[_ H]]; [left; lia | right; now right].
    - split; [|split; [|reflexivity]].
      + apply lineFuel_raw; [assumption | assumption |].
        destruct B2 as [[-> H]|[H _]]; [left; split; [reflexivity | lia] | now right].
      + cbn [linePosition setColumn setLine].
        destruct B2 as [[-> _]|[H _]]; lia. }
  destruct (generateLiteral_ok l line Hlt) as (lit & c' & E & B & Hne).
  rewrite E. cbn [bind columnPosition linePosition setColumn].
  destruct (isEmpty (TrimSpace lit)); cbn [negb].
  - exists (setColumn l c'), []. rewrite app_nil_r.
    split; [reflexivity|]. split; [constructor|].
    unfold lineFuel; cbn [linePosition columnPosition setColumn].
    repeat split; lia.
  - destruct (tokenTypeOf_total _ Hne) as (t & Et).
    unfold GenerateNewToken. rewrite Et. cbn [bind].
    eexists _, [_]. split; [reflexivity|]. split.
    + constructor; [|constructor]. apply emitted_literal; [assumption | lia].
    + unfold lineFuel; cbn [linePosition columnPosition setColumn].
      repeat split; lia.
Qed.

Lemma scanLine_ok (lines : list gostring) (line : gostring) (fuel : nat) :
  forall (l : DraskenLexer) (tokens : list Token),
    lineFuel lines line l <= fuel ->
    exists l' new,
      scanLine fuel lines line l tokens = Ret (l', tokens ++ new)
      /\ Forall emitted new
      /\ linePosition l <= linePosition l'
      /\ commentPrefixes l' = commentPrefixes l.
Proof.
  induction fuel as [|fuel IH]; intros l tokens Hf.
  - unfold lineFuel in Hf; inversion Hf.
  - simpl. destruct (columnPosition l <? length line) eqn:Ec.
    + apply Nat.ltb_lt in Ec.
      destruct (scanStep_ok lines line l tokens Ec) as (l1 & new1 & E1 & F1 & M1 & P1 & C1).
      rewrite E1. cbn [bind].
      destruct (IH l1 (tokens ++ new1)) as (l2 & new2 & E2 & F2 & P2 & C2); [lia|].
      exists l2, (new1 ++ new2). rewrite E2, app_assoc.
      split; [reflexivity|]. split; [now apply Forall_app|].
      split; [lia | congruence].
    + exists l, []. rewrite app_nil_r. repeat split; [constructor | lia].
Qed.

Lemma lineStep_ok (lines : list gostring) (l : DraskenLexer)
  (tokens : list Token) :
  linePosition l < length lines ->
  exists l' new,
    lineStep lines l tokens = Ret (l', tokens ++ new)
    /\ Forall emitted new
    /\ linePosition l < linePosition l'
    /\ commentPrefixes l' = commentPrefixes l.
Proof.
  intro Hlt. unfold lineStep.
  destruct (nth_error lines (linePosition l)) as [line|] eqn:E;
    [|apply nth_error_None in E; lia].
  destruct (shouldSkipLine l line).
  - exists (setLine l (linePosition l + 1)), []. rewrite app_nil_r.
    cbn [linePosition setLine]. repeat split; [constructor | lia].
  - destruct (scanLine_ok lines line _ (setColumn l 0) tokens (le_n _))
      as (l1 & new & E1 & F1 & P1 & C1).
    rewrite E1. cbn [bind]. exists (setLine l1 (linePosition l1 + 1)), new.
    cbn [linePosition setLine setColumn commentPrefixes] in *.
    repeat split; [assumption | lia | assumption].
Qed.

Lemma scanLines_ok (lines : list gostring) (fuel : nat) :
  forall (l : DraskenLexer) (tokens : list Token),
    length lines - linePosition l < fuel ->
    exists l' new,
      scanLines fuel lines l tokens = Ret (l', tokens ++ new)
      /\ Forall emitted new
      /\ commentPrefixes l' = commentPrefixes l.
Proof.
  induction fuel as [|fuel IH]; intros l tokens Hf; [lia|].
  simpl. destruct (linePosition l <? length lines) eqn:Ec.
  - apply Nat.ltb_lt in Ec.
    destruct (lineStep_ok lines l tokens Ec) as (l1 & new1 & E1 & F1 & P1 & C1).
    rewrite E1. cbn [bind].
    destruct (IH l1 (tokens ++ new1)) as (l2 & new2 & E2 & F2 & C2); [lia|].
    exists l2, (new1 ++ new2). rewrite E2, app_assoc.
    split; [reflexivity|]. split; [now apply Forall_app | congruence].
  - exists l, []. rewrite app_nil_r. repeat split; constructor.
Qed.

(** [GenerateTokens] returns: the tokens the loops appended, then one [EOF]
    token at the cursor the loops left. *)
Lemma GenerateTokens_ok (l : DraskenLexer) :
  exists l' front,
    GenerateTokens l
    = Ret (front ++ [mkToken EOF [] (columnPosition l') (columnPosition l')
                       (linePosition l')], l')
    /\ Forall emitted front.
Proof.
  unfold GenerateTokens.
  destruct (scanLines_ok (Split (input l)) _ l [] (Nat.lt_succ_diag_r _))
    as (l' & front & E & F & _).
  rewrite E. cbn [bind]. exists l', front. split; [reflexivity | assumption].
Qed.

Lemma tokenize_ok (input : gostring) (prefixes : list gostring) :
  exists l' front,
    tokenize input prefixes
    = Ret (front ++ [mkToken EOF [] (columnPosition l') (columnPosition l')
                       (linePosition l')])
    /\ Forall emitted front.
Proof.
  unfold tokenize.
  destruct (GenerateTokens_ok (NewLexer input prefixes)) as (l' & front & E & F).
  rewrite E. cbn [bind]. now exists l', front.
Qed.

Lemma emitted_not_EOF (t : Token) : emitted t -> Type_ t <> EOF.
Proof.
  intros [content s e ln _|literal k s e ln H _]; cbn; [discriminate|].
  now apply tokenTypeOf_kind in H.
Qed.

(* ------------------------------------------------------------------ *)
(** ** Bytes that fall through the dispatch, and operator bytes *)

Lemma fallback_byte (c : ascii) :
  noOtherClass c = true ->
  isWhitespace c = false
  /\ Ascii.eqb c BACKTICK = false
  /\ Ascii.eqb c DQUOTE || Ascii.eqb c SQUOTE = false
  /\ isDigit c = false
  /\ Ascii.eqb c DOTCH = false
  /\ isLetter c || Ascii.eqb c "_" = false
  /\ isOperator c = false
  /\ isPunctuation c = false
  /\ isEmpty (TrimSpace (byteToString c)) = trimmedAway c
  /\ tokenTypeOf (byteToString c) = Ret ILLEGAL.
Proof.
  destruct c as [[] [] [] [] [] [] [] []]; vm_compute; intro H;
    try discriminate H; repeat split.
Qed.

Lemma operator_byte (c : ascii) :
  isOperator c = true ->
  isWhitespace c = false
  /\ Ascii.eqb c BACKTICK = false
  /\ Ascii.eqb c DQUOTE || Ascii.eqb c SQUOTE = false
  /\ isDigit c = false
  /\ Ascii.eqb c DOTCH = false
  /\ isLetter c || Ascii.eqb c "_" = false
  /\ byteToString c = [c]
  /\ isEmpty (TrimSpace [c]) = false
  /\ exists k, tokenTypeOf [c] = Ret k /\ k <> EQ /\ (c = EQCH -> k = ASSIGN).
Proof.
  destruct c as [[] [] [] [] [] [] [] []]; vm_compute; intro H;
    try discriminate H; repeat split;
    (eexists; split; [reflexivity|]; split; [discriminate|]);
    first [reflexivity | intro E; discriminate E].
Qed.

Lemma switchLiteral_lookup (literal : gostring) :
  switchLiteral literal = lookupSymbol literal.
Proof.
  unfold switchLiteral, lookupSymbol, symbolTable. cbn [find fst snd].
  repeat match goal with
         | |- (if ?b then _ else _) = _ => destruct b; [reflexivity|]
         end.
  reflexivity.
Qed.

(* ------------------------------------------------------------------ *)
(** ** The result of a scan *)

(** C1, amended.  For every input and prefix list the scan returns (no panic,
    no missing fuel) a sequence [front ++ [last]] whose last token is [EOF]
    with empty literal and whose other tokens are not [EOF].  A byte that
    falls through every class of the dispatch takes one column and becomes
    one [ILLEGAL] token, unless it is a vertical tab, a form feed, 0x85 or
    0xA0, which [TrimSpace] empties: then the step appends nothing. *)
Theorem C1_scan_returns_one_final_EOF :
  forall (input : gostring) (prefixes : list gostring),
    (exists front last,
        tokenize input prefixes = Ret (front ++ [last])
        /\ Type_ last = EOF
        /\ Literal last = []
        /\ Forall (fun t => Type_ t <> EOF) front)
    /\ (forall lines line l tokens c,
           nth_error line (columnPosition l) = Some c ->
           noOtherClass c = true ->
           scanStep lines line l tokens
           = Ret (setColumn l (columnPosition l + 1),
                  if trimmedAway c then tokens
                  else tokens ++ [mkToken ILLEGAL (byteToString c)
                                    (columnPosition l) (columnPosition l + 1)
                                    (linePosition l)])).
Proof.
  intros input prefixes. split.
  - destruct (tokenize_ok input prefixes) as (l' & front & E & F).
    eexists front, _. split; [exact E|]. repeat split.
    eapply Forall_impl; [|exact F]. intros t Ht. now apply emitted_not_EOF.
  - intros lines line l tokens c Hn Hc.
    destruct (fallback_byte c Hc)
      as (Hw & Hb & Hq & Hd & Hdot & Hl & Ho & Hp & Htrim & Hk).
    unfold scanStep. rewrite (index_Ret _ _ _ Hn). cbn [bind].
    rewrite Hw, Hb. unfold generateLiteral.
    rewrite (index_Ret _ _ _ Hn). cbn [bind].
    rewrite Hq, Hd, Hdot, Hl, Ho, Hp. cbn [orb andb bind].
    rewrite Htrim. destruct (trimmedAway c); cbn [negb]; [reflexivity|].
    unfold GenerateNewToken. rewrite Hk. reflexivity.
Qed.

Lemma C1_scan_returns_one_final_EOF_witness :
  scanStep [str "@"] (str "@") (NewLexer (str "@") []) []
  = Ret (setColumn (NewLexer (str "@") []) 1,
         [mkToken ILLEGAL (str "@") 0 1 0]).
Proof.
  exact (proj2 (C1_scan_returns_one_final_EOF (str "@") [])
           [str "@"] (str "@") (NewLexer (str "@") []) [] "@"%char
           eq_refl eq_refl).
Defined.

(** C1 as stated fails on a vertical tab: the byte belongs to no class of the
    dispatch, and the scan of the one-byte input returns the [EOF] token
    alone, so no [ILLEGAL] token stands for it. *)
Lemma C1_counterexample_vertical_tab :
  noOtherClass "011"%char = true
  /\ tokenize ["011"%char] [] = Ret [mkToken EOF [] 1 1 1]
  /\ ~ (exists tokens t,
           tokenize ["011"%char] [] = Ret tokens
           /\ In t tokens /\ Type_ t = ILLEGAL).
Proof.
  split; [reflexivity|]. split; [reflexivity|].
  intros (tokens & t & E & Hin & Ht).
  vm_compute in E. injection E as <-.
  destruct Hin as [<-|[]]. discriminate Ht.
Qed.

(** C4, amended.  In every result the last token is [EOF] with empty literal
    and with [Start] and [End] both at the column cursor the scan ended on;
    every token before it has [Start < End] (so [End >= Start]), unless it is
    a back-quoted string whose literal holds a line feed; of such a token the
    statement says nothing. *)
Theorem C4_end_after_start_on_one_line :
  forall (input : gostring) (prefixes : list gostring),
  exists front l',
    GenerateTokens (NewLexer input prefixes)
    = Ret (front ++ [mkToken EOF [] (columnPosition l') (columnPosition l')
                       (linePosition l')], l')
    /\ Forall (fun t => Start t < End_ t
                        \/ (Type_ t = STRING /\ In LF (Literal t))) front.
Proof.
  intros input prefixes.
  destruct (GenerateTokens_ok (NewLexer input prefixes)) as (l' & front & E & F).
  exists front, l'. split; [exact E|].
  eapply Forall_impl; [|exact F].
  intros t [content s e ln [H|H]|literal k s e ln _ H]; cbn; auto.
Qed.

(** C4 as stated fails: a back-quoted string opened at column 2 and closed at
    column 0 of the next line has [End = 1 < Start = 2]. *)
Lemma C4_counterexample_raw_string_over_two_lines :
  exists t rest,
    tokenize (str "  `a" ++ [LF] ++ str "`") [] = Ret (t :: rest)
    /\ Type_ t = STRING
    /\ Start t = 2 /\ End_ t = 1
    /\ ~ End_ t >= Start t.
Proof.
  eexists _, _. split; [vm_compute; reflexivity|]. cbn.
  repeat split. lia.
Qed.

(** C5, amended.  Every token of a result that is neither a back-quoted
    string ([STRING], a kind the classifier never returns) nor the final
    [EOF] (whose empty literal the classifier cannot read) has the kind the
    classifier gives to its literal. *)
Theorem C5_reclassify_same_kind :
  forall (input : gostring) (prefixes : list gostring),
  exists tokens,
    tokenize input prefixes = Ret tokens
    /\ Forall (fun t => Type_ t = STRING \/ Type_ t = EOF
                        \/ tokenTypeOf (Literal t) = Ret (Type_ t)) tokens.
Proof.
  intros input prefixes.
  destruct (tokenize_ok input prefixes) as (l' & front & E & F).
  eexists. split; [exact E|]. apply Forall_app. split.
  - eapply Forall_impl; [|exact F].
    intros t [content s e ln _|literal k s e ln H _]; cbn; auto.
  - constructor; [cbn; auto | constructor].
Qed.

(** C5 as stated fails on both excepted tokens of [`a`]: the classifier
    gives [ILLEGAL] to the literal of the [STRING] token, and panics on the
    empty literal of the [EOF] token. *)
Lemma C5_counterexample_raw_string :
  exists t1 t2,
    tokenize (str "`a`") [] = Ret [t1; t2]
    /\ Type_ t1 = STRING /\ tokenTypeOf (Literal t1) = Ret ILLEGAL
    /\ Type_ t2 = EOF /\ tokenTypeOf (Literal t2) = Panic
    /\ ~ Forall (fun t => tokenTypeOf (Literal t) = Ret (Type_ t)) [t1; t2].
Proof.
  eexists _, _. split; [vm_compute; reflexivity|]. cbn.
  repeat split. intro H. inversion H as [|? ? H1 _]. discriminate H1.
Qed.

Lemma streq_String (a : gostring) :
  forall x : String.string,
    streq a (str x) = String.eqb (String.string_of_list_ascii a) x.
Proof.
  induction a as [|c a IH]; intros [|d x]; cbn; try reflexivity.
  rewrite IH. now destruct (Ascii.eqb c d).
Qed.

Lemma switchLiteral_specLookup (literal : gostring) :
  switchLiteral literal = specLookup literal.
Proof.
  unfold switchLiteral, specLookup, specSymbols. cbn [find fst snd].
  rewrite !streq_String.
  repeat match goal with
         | |- (if ?b then _ else _) = _ => destruct b; [reflexivity|]
         end.
  reflexivity.
Qed.

Lemma isDigit_specDigit (c : ascii) : isDigit c = specDigit c.
Proof. destruct c as [[] [] [] [] [] [] [] []]; reflexivity. Qed.

Lemma isLetter_specLetter (c : ascii) : isLetter c = specLetter c.
Proof. destruct c as [[] [] [] [] [] [] [] []]; reflexivity. Qed.

(** C6.  On a non-empty literal the classifier returns the kind of the exact
    match in the symbol table when there is one, and otherwise decides by the
    first byte alone: digit, [INT]; letter or underscore, [IDENT]; anything
    else, [ILLEGAL].  The input [@] gives one [ILLEGAL] token then [EOF]. *)
Theorem C6_classifier_table_then_first_byte :
  forall (literal : gostring) (start end_ line : nat),
    literal <> [] ->
    GenerateNewToken literal start end_ line
    = Ret (mkToken (classifySpec literal) literal start end_ line)
    /\ tokenize (str "@") []
       = Ret [mkToken ILLEGAL (str "@") 0 1 0; mkToken EOF [] 1 1 1].
Proof.
  intros literal start end_ line Hne. split; [|reflexivity].
  unfold GenerateNewToken, tokenTypeOf, classifySpec.
  rewrite switchLiteral_specLookup.
  destruct (specLookup literal) as [k|]; [reflexivity|].
  destruct literal as [|c r]; [contradiction|]. cbn [index nth_error bind hd].
  unfold specFirstCharacter, isUnderscore.
  rewrite <- isDigit_specDigit, <- isLetter_specLetter.
  destruct (isDigit c); [reflexivity|].
  destruct (isLetter c || Ascii.eqb c "_"); reflexivity.
Qed.

Lemma C6_classifier_table_then_first_byte_witness :
  GenerateNewToken (str "123") 0 3 1 = Ret (mkToken INT (str "123") 0 3 1)
  /\ GenerateNewToken (str "abc") 4 7 1 = Ret (mkToken IDENT (str "abc") 4 7 1)
  /\ GenerateNewToken (str "_foo") 8 12 1
     = Ret (mkToken IDENT (str "_foo") 8 12 1)
  /\ GenerateNewToken (str "==") 6 8 0 = Ret (mkToken EQ (str "==") 6 8 0)
  /\ GenerateNewToken (str "=") 5 6 0 = Ret (mkToken ASSIGN (str "=") 5 6 0)
  /\ GenerateNewToken (str "]") 23 24 0
     = Ret (mkToken RBRACKET (str "]") 23 24 0)
  /\ GenerateNewToken (str "@") 13 14 1
     = Ret (mkToken ILLEGAL (str "@") 13 14 1)
  /\ tokenize (str "@") []
     = Ret [mkToken ILLEGAL (str "@") 0 1 0; mkToken EOF [] 1 1 1].
Proof.
  split; [exact (proj1 (C6_classifier_table_then_first_byte (str "123") 0 3 1
                          ltac:(discriminate)))|].
  split; [exact (proj1 (C6_classifier_table_then_first_byte (str "abc") 4 7 1
                          ltac:(discriminate)))|].
  split; [exact (proj1 (C6_classifier_table_then_first_byte (str "_foo") 8 12 1
                          ltac:(discriminate)))|].
  split; [exact (proj1 (C6_classifier_table_then_first_byte (str "==") 6 8 0
                          ltac:(discriminate)))|].
  split; [exact (proj1 (C6_classifier_table_then_first_byte (str "=") 5 6 0
                          ltac:(discriminate)))|].
  split; [exact (proj1 (C6_classifier_table_then_first_byte (str "]") 23 24 0
                          ltac:(discriminate)))|].
  exact (C6_classifier_table_then_first_byte (str "@") 13 14 1
           ltac:(discriminate)).
Defined.

Lemma nextIs_eq (line : gostring) (start : nat) :
  nextIs (fun d => Ascii.eqb d EQCH) line start = true
  <-> nth_error line (S start) = Some EQCH.
Proof.
  unfold nextIs. destruct (nth_error line (S start)) as [d|].
  - split; intro H.
    + apply Ascii.eqb_eq in H. now subst.
    + injection H as ->. apply Ascii.eqb_refl.
  - split; discriminate.
Qed.

(** X20.  When extraction starts at an operator byte: if the byte is [=] and
    the next byte of the same line is [=], both are consumed as the literal
    [==] and the step appends one [EQ] token over the two columns; otherwise
    exactly one byte is consumed and the step appends one token over one
    column, whose kind is not [EQ], and is [ASSIGN] when the byte is [=]. *)
Theorem X20_double_equal_lookahead_step :
  forall (lines : list gostring) (line : gostring) (l : DraskenLexer)
         (tokens : list Token) (c : ascii),
    nth_error line (columnPosition l) = Some c ->
    isOperator c = true ->
    let col := columnPosition l in
    let doubled := c = EQCH /\ nth_error line (S col) = Some EQCH in
    (doubled ->
       generateLiteral l line = Ret (str "==", setColumn l (col + 2))
       /\ scanStep lines line l tokens
          = Ret (setColumn l (col + 2),
                 tokens ++ [mkToken EQ (str "==") col (col + 2) (linePosition l)]))
    /\ (~ doubled ->
          generateLiteral l line = Ret ([c], setColumn l (col + 1))
          /\ exists k,
               scanStep lines line l tokens
               = Ret (setColumn l (col + 1),
                      tokens ++ [mkToken k [c] col (col + 1) (linePosition l)])
               /\ k <> EQ
               /\ (c = EQCH -> k = ASSIGN)).
Proof.
  intros lines line l tokens c Hn Hop col doubled.
  destruct (operator_byte c Hop)
    as (Hw & Hb & Hq & Hd & Hdot & Hl & Hstr & Htrim & k & Hk & HkEQ & HkAS).
  assert (Hgen : generateLiteral l line
                 = if Ascii.eqb c EQCH
                      && nextIs (fun d => Ascii.eqb d EQCH) line col
                   then Ret (str "==", setColumn l (col + 2))
                   else Ret ([c], setColumn l (col + 1))).
  { unfold generateLiteral. rewrite (index_Ret _ _ _ Hn). cbn [bind].
    rewrite Hq, Hd, Hdot, Hl, Hop, Hstr. reflexivity. }
  assert (Hstep : scanStep lines line l tokens
                  = '(literal, l') <- generateLiteral l line ;;
                    if negb (isEmpty (TrimSpace literal)) then
                      token <- GenerateNewToken literal col (columnPosition l')
                                 (linePosition l') ;;
                      Ret (l', tokens ++ [token])
                    else Ret (l', tokens)).
  { unfold scanStep. rewrite (index_Ret _ _ _ Hn). cbn [bind].
    now rewrite Hw, Hb. }
  split.
  - intros [-> Hnext]. apply nextIs_eq in Hnext.
    rewrite Hstep, Hgen. fold col in Hnext. rewrite Hnext.
    split; reflexivity.
  - intro Hnot.
    assert (E : Ascii.eqb c EQCH
                && nextIs (fun d => Ascii.eqb d EQCH) line col = false).
    { apply not_true_is_false. intro H. apply andb_true_iff in H as [H1 H2].
      apply Hnot. split; [now apply Ascii.eqb_eq | now apply nextIs_eq]. }
    rewrite Hstep, Hgen, E. split; [reflexivity|].
    exists k. cbn [bind]. rewrite Htrim. cbn [negb].
    unfold GenerateNewToken. rewrite Hk. cbn [bind].
    repeat split; assumption.
Qed.

Lemma X20_double_equal_lookahead_step_witness :
  let l := setColumn (NewLexer (str "a==b") []) 1 in
  generateLiteral l (str "a==b") = Ret (str "==", setColumn l 3)
  /\ scanStep [str "a==b"] (str "a==b") l []
     = Ret (setColumn l 3, [mkToken EQ (str "==") 1 3 0]).
Proof.
  exact (proj1 (X20_double_equal_lookahead_step [str "a==b"] (str "a==b")
                  (setColumn (NewLexer (str "a==b") []) 1) [] "="%char
                  eq_refl eq_refl)
           (conj eq_refl eq_refl)).
Defined.


(** C10.  The classifier panics on the empty literal (it reads
    [literal[0]]) and returns on every non-empty one; the scan calls it only
    under the guard [TrimSpace(literal) != ""], which a literal passes only if
    it is non-empty; so no turn of the scan panics, and [GenerateTokens]
    returns. *)
Theorem C10_classifier_needs_nonempty_literal :
  (forall start end_ line, GenerateNewToken [] start end_ line = Panic)
  /\ (forall literal start end_ line,
         literal <> [] ->
         exists token, GenerateNewToken literal start end_ line = Ret token)
  /\ (forall literal, isEmpty (TrimSpace literal) = false -> literal <> [])
  /\ (forall lines line l tokens,
         columnPosition l < length line ->
         exists r, scanStep lines line l tokens = Ret r)
  /\ (forall l, exists r, GenerateTokens l = Ret r).
Proof.
  split; [reflexivity|]. split; [|split; [|split]].
  - intros literal start end_ line Hne.
    destruct (tokenTypeOf_total literal Hne) as (t & E).
    unfold GenerateNewToken. rewrite E. eexists; reflexivity.
  - exact TrimSpace_guard.
  - intros lines line l tokens Hlt.
    destruct (scanStep_ok lines line l tokens Hlt) as (l' & new & E & _).
    eexists; exact E.
  - intro l. destruct (GenerateTokens_ok l) as (l' & front & E & _).
    eexists; exact E.
Qed.

Lemma C10_classifier_needs_nonempty_literal_witness :
  (exists token, GenerateNewToken (str "123") 0 3 1 = Ret token)
  /\ str "123" <> []
  /\ (exists r, scanStep [str "x"] (str "x") (NewLexer (str "x") []) [] = Ret r).
Proof.
  destruct C10_classifier_needs_nonempty_literal as (_ & H2 & H3 & H4 & _).
  split; [apply H2; discriminate|].
  split; [apply H3; reflexivity|].
  apply H4. cbn. lia.
Defined.

(* ------------------------------------------------------------------ *)
(** ** Where the column loop keeps the line it started on

    After a back-quoted string has moved the line cursor, the column loop of
    [GenerateTokens] goes on with the [line] and [lineLen] of the line it
    started on and with the column of the line the string closed on.  The
    three evaluations below are runs of the code on such inputs. *)

(** C2 on the code: in the two-line input [`a / b` x] (no prefixes) the [x]
    after the closing back quote is neither white space nor on a comment
    line, and no token literal holds it: the scan returns the string token
    and [EOF] only. *)
Theorem C2_text_after_raw_string_is_dropped :
  let input := str "`a" ++ [LF] ++ str "b` x" in
  tokenize input []
  = Ret [mkToken STRING (str "`a" ++ [LF] ++ str "b`") 0 2 0;
         mkToken EOF [] 2 2 2]
  /\ In "x"%char input
  /\ isWhitespace "x"%char = false
  /\ (forall line, shouldSkipLine (NewLexer input []) line = false)
  /\ ~ In "x"%char
         (concat (map Literal
                    [mkToken STRING (str "`a" ++ [LF] ++ str "b`") 0 2 0;
                     mkToken EOF [] 2 2 2])).
Proof.
  cbv zeta. split; [vm_compute; reflexivity|].
  split; [vm_compute; tauto|]. split; [reflexivity|].
  split; [reflexivity|]. vm_compute. intro H.
  repeat (destruct H as [H|H]; [discriminate H|]). exact H.
Qed.

(** C3 on the code: the two-line back-quoted string of the scenario gives
    three tokens, not two: after the string token the loop reads column 5 of
    the first line again and appends the identifier [i] on line 1. *)
Theorem C3_multi_line_scenario_gives_three_tokens :
  tokenize (str "`multi" ++ [LF] ++ str "line`") []
  = Ret [mkToken STRING (str "`multi" ++ [LF] ++ str "line`") 0 5 0;
         mkToken IDENT (str "i") 5 6 1;
         mkToken EOF [] 6 6 2].
Proof. vm_compute. reflexivity. Qed.

(** C9 on the code: the one-line input [`a] (an unterminated back-quoted
    string) gives a second [STRING] token whose [Line] is 1, while the input
    has the single line 0, which holds its only back quote. *)
Theorem C9_raw_string_line_after_unterminated_string :
  tokenize (str "`a") []
  = Ret [mkToken STRING (str "`a" ++ [LF]) 0 0 0;
         mkToken STRING (str "`") 0 1 1;
         mkToken IDENT (str "a") 1 2 1;
         mkToken EOF [] 2 2 2]
  /\ Split (str "`a") = [str "`a"]
  /\ nth_error (Split (str "`a")) 1 = None.
Proof. repeat split; vm_compute; reflexivity. Qed.

(* ------------------------------------------------------------------ *)
(** ** Lines without a back quote: the column loop stays on its line *)

Lemma blankLine_nth (line : gostring) (i : nat) (c : ascii) :
  nth_error line i = Some c -> isWhitespace c = false -> blankLine line = false.
Proof.
  intros Hn Hc. apply not_true_is_false. intro H.
  unfold blankLine in H. rewrite forallb_forall in H.
  apply nth_error_In in Hn. apply H in Hn. congruence.
Qed.

Lemma scanStep_plain (lines : list gostring) (line : gostring)
  (l : DraskenLexer) (tokens : list Token) (c : ascii) :
  nth_error line (columnPosition l) = Some c ->
  Ascii.eqb c BACKTICK = false ->
  exists c' new,
    scanStep lines line l tokens = Ret (setColumn l c', tokens ++ new)
    /\ columnPosition l < c'
    /\ Forall (fun t => Line t = linePosition l /\ Type_ t <> EOF
                        /\ blankLine line = false) new.
Proof.
  intros Hn Hb.
  assert (Hlt : columnPosition l < length line)
    by (apply nth_error_Some; congruence).
  unfold scanStep. rewrite (index_Ret _ _ _ Hn). cbn [bind].
  destruct (isWhitespace c) eqn:Hw.
  { exists (columnPosition l + 1), []. rewrite app_nil_r.
    repeat split; [lia | constructor]. }
  rewrite Hb.
  destruct (generateLiteral_ok l line Hlt) as (lit & c' & E & B & Hne).
  rewrite E. cbn [bind columnPosition linePosition setColumn].
  destruct (isEmpty (TrimSpace lit)); cbn [negb].
  - exists c', []. rewrite app_nil_r. repeat split; [lia | constructor].
  - destruct (tokenTypeOf_total lit Hne) as (t & Et).
    unfold GenerateNewToken. rewrite Et. cbn [bind].
    exists c', [mkToken t lit (columnPosition l) c' (linePosition l)].
    repeat split; [lia|]. constructor; [|constructor]. cbn.
    repeat split.
    + now apply tokenTypeOf_kind in Et.
    + now apply blankLine_nth with (columnPosition l) c.
Qed.

Lemma scanLine_plain (lines : list gostring) (line : gostring) (fuel : nat) :
  ~ In BACKTICK line ->
  forall (l : DraskenLexer) (tokens : list Token),
    length line - columnPosition l < fuel ->
    exists c' new,
      scanLine fuel lines line l tokens = Ret (setColumn l c', tokens ++ new)
      /\ Forall (fun t => Line t = linePosition l /\ Type_ t <> EOF
                          /\ blankLine line = false) new.
Proof.
  intro Hnb. induction fuel as [|fuel IH]; intros l tokens Hf; [lia|].
  simpl. destruct (columnPosition l <? length line) eqn:Ec.
  - apply Nat.ltb_lt in Ec.
    destruct (index_lt line _ Ec) as (c & Hn & _).
    assert (Hb : Ascii.eqb c BACKTICK = false).
    { apply not_true_is_false. intro H. apply Ascii.eqb_eq in H. subst c.
      apply Hnb. now apply nth_error_In with (columnPosition l). }
    destruct (scanStep_plain lines line l tokens c Hn Hb)
      as (c1 & new1 & E1 & B1 & F1).
    rewrite E1. cbn [bind].
    destruct (IH (setColumn l c1) (tokens ++ new1)) as (c2 & new2 & E2 & F2).
    { cbn [columnPosition setColumn]. lia. }
    exists c2, (new1 ++ new2). rewrite E2, app_assoc.
    split; [reflexivity|]. apply Forall_app. split; assumption.
  - exists (columnPosition l), []. rewrite app_nil_r.
    split; [destruct l; reflexivity | constructor].
Qed.

Lemma lineStep_plain (lines : list gostring) (l : DraskenLexer)
  (tokens : list Token) (line : gostring) :
  nth_error lines (linePosition l) = Some line ->
  ~ In BACKTICK line ->
  exists c' new,
    lineStep lines l tokens
    = Ret (setLine (setColumn l c') (linePosition l + 1), tokens ++ new)
    /\ Forall (fun t => onScannedLine (commentPrefixes l) lines t
                        /\ Type_ t <> EOF) new.
Proof.
  intros Hn Hnb. unfold lineStep. rewrite Hn.
  destruct (shouldSkipLine l line) eqn:Hskip.
  - exists (columnPosition l), []. rewrite app_nil_r.
    split; [destruct l; reflexivity | constructor].
  - destruct (scanLine_plain lines line (lineFuel lines line (setColumn l 0))
                Hnb (setColumn l 0) tokens) as (c' & new & E & F).
    { unfold lineFuel. apply Nat.lt_succ_r. apply Nat.le_add_l. }
    rewrite E. cbn [bind]. exists c', new. split; [reflexivity|].
    eapply Forall_impl; [|exact F].
    intros t (Hline & Hk & Hblank). split; [|assumption].
    exists line. cbn [linePosition setColumn] in Hline. rewrite Hline.
    repeat split; assumption.
Qed.

Lemma scanLines_plain (lines : list gostring) (fuel : nat) :
  (forall line, In line lines -> ~ In BACKTICK line) ->
  forall (l : DraskenLexer) (tokens : list Token),
    length lines - linePosition l < fuel ->
    exists l' new,
      scanLines fuel lines l tokens = Ret (l', tokens ++ new)
      /\ Forall (fun t => onScannedLine (commentPrefixes l) lines t
                          /\ Type_ t <> EOF) new.
Proof.
  intro Hnb. induction fuel as [|fuel IH]; intros l tokens Hf; [lia|].
  simpl. destruct (linePosition l <? length lines) eqn:Ec.
  - apply Nat.ltb_lt in Ec.
    destruct (nth_error lines (linePosition l)) as [line|] eqn:Hn;
      [|apply nth_error_None in Hn; lia].
    destruct (lineStep_plain lines l tokens line Hn
                (Hnb line (nth_error_In _ _ Hn))) as (c1 & new1 & E1 & F1).
    rewrite E1. cbn [bind].
    destruct (IH (setLine (setColumn l c1) (linePosition l + 1))
                (tokens ++ new1)) as (l2 & new2 & E2 & F2).
    { cbn [linePosition setLine]. lia. }
    exists l2, (new1 ++ new2). rewrite E2, app_assoc.
    split; [reflexivity|]. apply Forall_app. split; assumption.
  - exists l, []. rewrite app_nil_r. split; [reflexivity | constructor].
Qed.

Lemma Split_In (s : gostring) (line : gostring) (c : ascii) :
  In line (Split s) -> In c line -> In c s.
Proof.
  revert line; induction s as [|x s IH]; intros line Hl Hc; simpl in Hl.
  - destruct Hl as [<-|[]]. exact Hc.
  - destruct (Ascii.eqb x LF).
    + destruct Hl as [<-|Hl]; [destruct Hc|]. right. now apply IH with line.
    + destruct (Split s) as [|l0 ls] eqn:E.
      * destruct Hl as [<-|[]]. destruct Hc as [<-|[]]. now left.
      * destruct Hl as [<-|Hl].
        -- destruct Hc as [<-|Hc]; [now left|].
           right. apply IH with l0; [now left | assumption].
        -- right. apply IH with line; [now right | assumption].
Qed.

Lemma blankLine_no_backtick (line : gostring) :
  blankLine line = true -> ~ In BACKTICK line.
Proof.
  unfold blankLine. rewrite forallb_forall. intros H Hin.
  apply H in Hin. discriminate Hin.
Qed.

(** X21.  For a line that the line loop reaches: if its trimmed text
    begins with a configured prefix, the turn appends no token and only moves
    the line cursor to the next line; if it is empty or blank, the turn
    appends no token and moves to the next line; with no prefix configured no
    line is skipped.  When the input holds no back quote the loop reaches
    every line, and every token before [EOF] sits on a line that is neither a
    comment line nor blank. *)
Theorem X21_comment_and_blank_lines_give_no_token :
  (forall (lines : list gostring) (l : DraskenLexer) (tokens : list Token)
          (line : gostring),
      nth_error lines (linePosition l) = Some line ->
      (shouldSkipLine l line = true ->
         lineStep lines l tokens = Ret (setLine l (linePosition l + 1), tokens))
      /\ (blankLine line = true ->
            exists l', lineStep lines l tokens = Ret (l', tokens)
                       /\ linePosition l' = linePosition l + 1)
      /\ (commentPrefixes l = [] -> shouldSkipLine l line = false))
  /\ (forall (input : gostring) (prefixes : list gostring),
         ~ In BACKTICK input ->
         exists front last,
           tokenize input prefixes = Ret (front ++ [last])
           /\ Type_ last = EOF
           /\ Forall (onScannedLine prefixes (Split input)) front).
Proof.
  split.
  - intros lines l tokens line Hn. split; [|split].
    + intro Hskip. unfold lineStep. now rewrite Hn, Hskip.
    + intro Hblank. unfold lineStep. rewrite Hn.
      destruct (shouldSkipLine l line).
      * eexists. split; [reflexivity|]. reflexivity.
      * destruct (scanLine_plain lines line
                    (lineFuel lines line (setColumn l 0))
                    (blankLine_no_backtick line Hblank) (setColumn l 0) tokens)
          as (c' & new & E & F).
        { unfold lineFuel. apply Nat.lt_succ_r. apply Nat.le_add_l. }
        rewrite E. cbn [bind]. destruct new as [|t new].
        -- rewrite app_nil_r. eexists. split; reflexivity.
        -- inversion F as [|? ? (_ & _ & Hb) _]. congruence.
    + intro Hnil. unfold shouldSkipLine. now rewrite Hnil.
  - intros src prefixes Hnb. unfold tokenize, GenerateTokens.
    cbn [input linePosition NewLexer].
    destruct (scanLines_plain (Split src) (S (length (Split src) - 0)))
      with (l := NewLexer src prefixes) (tokens := @nil Token)
      as (l' & front & E & F).
    { intros line Hl Hc. apply Hnb. now apply Split_In with line. }
    { apply Nat.lt_succ_diag_r. }
    rewrite E. cbn [bind]. eexists front, _. split; [reflexivity|].
    split; [reflexivity|].
    eapply Forall_impl; [|exact F]. intros t [H _]. exact H.
Qed.

Lemma X21_comment_and_blank_lines_give_no_token_witness :
  let lines := [str "x = 1"; str "  // note"; str "   "] in
  let l := setLine (setColumn (NewLexer [] [str "//"]) 5) 1 in
  lineStep lines l [] = Ret (setLine l 2, [])
  /\ (exists l', lineStep lines (setLine l 2) [] = Ret (l', [])
                 /\ linePosition l' = 3)
  /\ shouldSkipLine (NewLexer [] []) (str "  // note") = false
  /\ (exists front last,
         tokenize (str "x" ++ [LF] ++ str "// y") [str "//"]
         = Ret (front ++ [last])
         /\ Type_ last = EOF
         /\ Forall (onScannedLine [str "//"]
                      (Split (str "x" ++ [LF] ++ str "// y"))) front).
Proof.
  cbv zeta.
  pose proof X21_comment_and_blank_lines_give_no_token as [Hstep Hall].
  split; [|split; [|split]].
  - apply (Hstep [str "x = 1"; str "  // note"; str "   "]
             (setLine (setColumn (NewLexer [] [str "//"]) 5) 1) []
             (str "  // note") eq_refl); reflexivity.
  - apply (Hstep [str "x = 1"; str "  // note"; str "   "]
             (setLine (setLine (setColumn (NewLexer [] [str "//"]) 5) 1) 2) []
             (str "   ") eq_refl); reflexivity.
  - apply (Hstep [str "  // note"] (NewLexer [] []) [] (str "  // note")
             eq_refl); reflexivity.
  - apply Hall. vm_compute. intro H.
    repeat (destruct H as [H|H]; [discriminate H|]). exact H.
Defined.


(* ------------------------------------------------------------------ *)
(** ** More on [generateLiteral]: what each branch consumes *)

(** A byte that is not white space and belongs to some class of the dispatch
    is an ASCII byte that [TrimSpace] keeps. *)
Lemma classed_byte (c : ascii) :
  isWhitespace c = false -> noOtherClass c = false ->
  (code c < 128)%N /\ asciiSpace c = false.
Proof.
  destruct c as [[] [] [] [] [] [] [] []]; vm_compute; intros H1 H2;
    try discriminate H1; try discriminate H2; split; reflexivity.
Qed.

Lemma textOf_ascii (c : ascii) (w : gostring) :
  (code c < 128)%N -> textOf (c :: w) = c :: w.
Proof.
  intro H. destruct w as [|d w]; [|reflexivity].
  unfold textOf, byteToString. apply N.ltb_lt in H. now rewrite H.
Qed.

Lemma sub_cons (line : gostring) (lo hi : nat) (c : ascii) :
  nth_error line lo = Some c -> lo < hi ->
  sub line lo hi = c :: sub line (S lo) hi.
Proof.
  intros Hn Hlt. unfold sub. rewrite (skipn_nth_error _ _ _ _ Hn).
  replace (hi - lo) with (S (hi - S lo)) by lia. reflexivity.
Qed.

Lemma sub_one (line : gostring) (lo : nat) (c : ascii) :
  nth_error line lo = Some c -> sub line lo (lo + 1) = [c].
Proof.
  intro Hn. unfold sub. rewrite (skipn_nth_error _ _ _ _ Hn).
  replace (lo + 1 - lo) with 1 by lia. reflexivity.
Qed.

Lemma sub_two (line : gostring) (lo : nat) (c d : ascii) :
  nth_error line lo = Some c -> nth_error line (S lo) = Some d ->
  sub line lo (lo + 2) = [c; d].
Proof.
  intros Hc Hd. unfold sub. rewrite (skipn_nth_error _ _ _ _ Hc).
  rewrite (skipn_nth_error _ _ _ _ Hd).
  replace (lo + 2 - lo) with 2 by lia. reflexivity.
Qed.

Lemma TrimLeftSpaceRev_last (c : ascii) :
  asciiSpace c = false -> (code c < 128)%N ->
  forall (n : nat) (s : gostring),
    length s <= n -> TrimLeftSpaceRev (s ++ [c]) <> [].
Proof.
  intros Hsp Hc.
  assert (H2 : forall b, space2 c b = false).
  { intro b. unfold space2.
    replace (code c =? 194)%N with false; [reflexivity|].
    symmetry. apply N.eqb_neq. lia. }
  assert (H3 : forall b b', space3 c b b' = false).
  { intros b b'. unfold space3.
    replace (code c =? 225)%N with false by (symmetry; apply N.eqb_neq; lia).
    replace (code c =? 226)%N with false by (symmetry; apply N.eqb_neq; lia).
    replace (code c =? 227)%N with false by (symmetry; apply N.eqb_neq; lia).
    reflexivity. }
  induction n as [|n IH]; intros s Hlen.
  - destruct s; [|simpl in Hlen; lia]. simpl. rewrite Hsp. discriminate.
  - destruct s as [|b1 s1]; [simpl; rewrite Hsp; discriminate|].
    simpl in Hlen. cbn [app TrimLeftSpaceRev].
    destruct (asciiSpace b1); [apply IH; lia|].
    destruct s1 as [|b2 s2].
    + cbn [app]. rewrite H2. discriminate.
    + simpl in Hlen. cbn [app].
      destruct (space2 b2 b1); [apply IH; lia|].
      destruct s2 as [|b3 s3].
      * cbn [app]. rewrite H3. discriminate.
      * simpl in Hlen. cbn [app].
        destruct (space3 b3 b2 b1); [apply IH; lia | discriminate].
Qed.

(** A literal led by an ASCII byte that is not white space passes the guard
    [strings.TrimSpace(literal) != ""]. *)
Lemma TrimSpace_head (c : ascii) (w : gostring) :
  asciiSpace c = false -> (code c < 128)%N ->
  isEmpty (TrimSpace (c :: w)) = false.
Proof.
  intros Hsp Hc.
  assert (E : TrimLeftSpace (c :: w) = c :: w).
  { cbn [TrimLeftSpace]. rewrite Hsp.
    destruct w as [|b2 r2]; [reflexivity|].
    unfold space2.
    replace (code c =? 194)%N with false by (symmetry; apply N.eqb_neq; lia).
    cbn [andb]. destruct r2 as [|b3 r3]; [reflexivity|].
    unfold space3.
    replace (code c =? 225)%N with false by (symmetry; apply N.eqb_neq; lia).
    replace (code c =? 226)%N with false by (symmetry; apply N.eqb_neq; lia).
    replace (code c =? 227)%N with false by (symmetry; apply N.eqb_neq; lia).
    reflexivity. }
  unfold TrimSpace, TrimRightSpace. rewrite E. cbn [rev].
  pose proof (TrimLeftSpaceRev_last c Hsp Hc (length (rev w)) (rev w) (le_n _)) as H.
  destruct (TrimLeftSpaceRev (rev w ++ [c])) as [|x r] eqn:Ex; [contradiction|].
  cbn [rev]. destruct (rev r); reflexivity.
Qed.

(** The literal is the text of the bytes consumed, from the column to the
    new column; a byte of no class is consumed alone. *)
Lemma generateLiteral_text (l : DraskenLexer) (line : gostring) (c : ascii) :
  nth_error line (columnPosition l) = Some c ->
  exists c',
    generateLiteral l line
    = Ret (textOf (sub line (columnPosition l) c'), setColumn l c')
    /\ columnPosition l < c' <= length line
    /\ (noOtherClass c = true -> c' = columnPosition l + 1).
Proof.
  intro Hn.
  assert (Hlt : columnPosition l < length line)
    by (apply nth_error_Some; congruence).
  unfold generateLiteral. rewrite (index_Ret _ _ _ Hn). cbn [bind].
  pose proof (skipn_nth_error _ _ _ _ Hn) as Hsk.
  assert (Hlen : length (skipn (S (columnPosition l)) line)
                 = length line - S (columnPosition l)) by apply length_skipn.
  assert (Htext : forall i, columnPosition l < i ->
                   noOtherClass c = false -> isWhitespace c = false ->
                   textOf (sub line (columnPosition l) i)
                   = sub line (columnPosition l) i).
  { intros i Hi Hno Hw. rewrite (sub_cons _ _ _ _ Hn Hi).
    apply textOf_ascii. now apply classed_byte. }
  destruct (noOtherClass c) eqn:Hno.
  { destruct (fallback_byte c Hno)
      as (Hw & Hb & Hq & Hd & Hdot & Hl & Ho & Hp & _).
    rewrite Hq, Hd, Hdot, Hl, Ho, Hp. cbn [orb andb].
    exists (columnPosition l + 1). rewrite (sub_one _ _ _ Hn).
    split; [reflexivity|]. split; [lia | reflexivity]. }
  destruct (Ascii.eqb c DQUOTE || Ascii.eqb c SQUOTE) eqn:Eq.
  { rewrite Nat.add_1_r.
    pose proof (quoteLoop_bounds c (skipn (S (columnPosition l)) line)
                  (S (columnPosition l))) as B.
    set (i := quoteLoop _ _ _) in *. cbn [columnPosition setColumn].
    rewrite slice_Ret by lia. cbn [bind]. fold (sub line (columnPosition l) i).
    exists i. rewrite Htext; [| lia | reflexivity |].
    - split; [reflexivity|]. split; [lia | discriminate].
    - revert Eq. clear. destruct c as [[] [] [] [] [] [] [] []];
        vm_compute; intro H; try discriminate H; reflexivity. }
  destruct (isDigit c || (Ascii.eqb c DOTCH && nextIs isDigit line (columnPosition l))) eqn:Enum.
  { rewrite Hsk.
    assert (Hfirst : isDigit c || Ascii.eqb c DOTCH = true).
    { apply orb_true_iff in Enum as [H|H]; [now rewrite H|].
      apply andb_true_iff in H as [H _]. rewrite H. apply orb_true_r. }
    pose proof (numberLoop_first c (skipn (S (columnPosition l)) line)
                  (columnPosition l) Hfirst) as B1.
    pose proof (numberLoop_bounds (c :: skipn (S (columnPosition l)) line)
                  false (columnPosition l)) as B2.
    set (i := numberLoop _ _ _) in *. cbn [length] in B2.
    rewrite slice_Ret by lia. cbn [bind]. fold (sub line (columnPosition l) i).
    exists i. rewrite Htext; [| lia | reflexivity |].
    - split; [reflexivity|]. split; [lia | discriminate].
    - revert Hfirst. clear. destruct c as [[] [] [] [] [] [] [] []];
        vm_compute; intro H; try discriminate H; reflexivity. }
  destruct (isLetter c || Ascii.eqb c "_") eqn:Eid.
  { rewrite Hsk.
    pose proof (identLoop_first c (skipn (S (columnPosition l)) line)
                  (columnPosition l) Eid) as B1.
    pose proof (identLoop_bounds (c :: skipn (S (columnPosition l)) line)
                  (columnPosition l)) as B2.
    set (i := identLoop _ _) in *. cbn [length] in B2.
    rewrite slice_Ret by lia. cbn [bind]. fold (sub line (columnPosition l) i).
    exists i. rewrite Htext; [| lia | reflexivity |].
    - split; [reflexivity|]. split; [lia | discriminate].
    - revert Eid. clear. destruct c as [[] [] [] [] [] [] [] []];
        vm_compute; intro H; try discriminate H; reflexivity. }
  destruct (isOperator c) eqn:Eop.
  { destruct (Ascii.eqb c EQCH && nextIs (fun c0 => Ascii.eqb c0 EQCH) line (columnPosition l)) eqn:Eeq.
    - apply andb_true_iff in Eeq as [Hc Hnext].
      apply Ascii.eqb_eq in Hc. subst c.
      pose proof (nextIs_lt _ _ _ Hnext) as Hlt2.
      unfold nextIs in Hnext.
      destruct (nth_error line (S (columnPosition l))) as [d|] eqn:Ed;
        [|discriminate].
      apply Ascii.eqb_eq in Hnext. subst d.
      exists (columnPosition l + 2). rewrite (sub_two _ _ _ _ Hn Ed).
      split; [reflexivity|]. split; [lia | discriminate].
    - exists (columnPosition l + 1). rewrite (sub_one _ _ _ Hn).
      split; [reflexivity|]. split; [lia | discriminate]. }
  exists (columnPosition l + 1). rewrite (sub_one _ _ _ Hn).
  destruct (isPunctuation c); (split; [reflexivity|]; split; [lia | discriminate]).
Qed.

(** What the number loop takes from [rest]: digits and dots, at most one dot
    (none if one was seen before), and it stops at the end of the line, at a
    byte that is neither, or at a second dot. *)
Lemma numberLoop_spec (rest : gostring) :
  forall (hasDot : bool) (i : nat),
    let j := numberLoop rest hasDot i in
    let taken := firstn (j - i) rest in
    forallb isNumberByte taken = true
    /\ dots taken <= (if hasDot then 0 else 1)
    /\ match nth_error rest (j - i) with
       | None => True
       | Some d => isDigit d = false
                   /\ (d = DOTCH -> hasDot = true \/ dots taken = 1)
       end.
Proof.
  induction rest as [|c rest IH]; intros hasDot i; cbn zeta.
  - cbn [numberLoop]. rewrite Nat.sub_diag. cbn.
    repeat split; destruct hasDot; lia.
  - cbn [numberLoop]. destruct (Ascii.eqb c DOTCH) eqn:Edot.
    + apply Ascii.eqb_eq in Edot. subst c. destruct hasDot.
      * rewrite Nat.sub_diag. cbn. repeat split; auto.
      * specialize (IH true (S i)). cbn zeta in IH.
        pose proof (numberLoop_bounds rest true (S i)) as B.
        set (j := numberLoop rest true (S i)) in *.
        replace (j - i) with (S (j - S i)) by lia.
        destruct IH as (F & D & N). cbn [firstn nth_error].
        unfold dots in *. cbn [forallb filter].
        replace (isNumberByte DOTCH) with true by reflexivity.
        replace (Ascii.eqb DOTCH DOTCH) with true by reflexivity.
        cbn [length andb]. split; [assumption|]. split; [lia|].
        destruct (nth_error rest (j - S i)); [|exact I].
        destruct N as (N1 & N2). split; [assumption|]. intros _. right. lia.
    + destruct (isDigit c) eqn:Edig; cbn [negb].
      * specialize (IH hasDot (S i)). cbn zeta in IH.
        pose proof (numberLoop_bounds rest hasDot (S i)) as B.
        set (j := numberLoop rest hasDot (S i)) in *.
        replace (j - i) with (S (j - S i)) by lia.
        destruct IH as (F & D & N). cbn [firstn nth_error].
        unfold dots in *. cbn [forallb filter].
        unfold isNumberByte at 1. rewrite Edig. cbn [orb andb].
        rewrite (Ascii.eqb_sym DOTCH c), Edot.
        split; [assumption|]. split; [assumption|].
        destruct (nth_error rest (j - S i)); [|exact I]. exact N.
      * rewrite Nat.sub_diag. cbn [firstn forallb nth_error]. unfold dots.
        cbn [filter length].
        split; [reflexivity|]. split; [destruct hasDot; lia|].
        split; [exact Edig|]. intros ->. discriminate Edot.
Qed.

Lemma identLoop_spec (rest : gostring) :
  forall (i : nat),
    let j := identLoop rest i in
    forallb isAlphanumericOrUnderscore (firstn (j - i) rest) = true
    /\ match nth_error rest (j - i) with
       | None => True
       | Some d => isAlphanumericOrUnderscore d = false
       end.
Proof.
  induction rest as [|c rest IH]; intro i; cbn zeta.
  - cbn [identLoop]. rewrite Nat.sub_diag. cbn. auto.
  - cbn [identLoop]. destruct (isAlphanumericOrUnderscore c) eqn:E.
    + specialize (IH (S i)). cbn zeta in IH.
      pose proof (identLoop_bounds rest (S i)) as B.
      set (j := identLoop rest (S i)) in *.
      replace (j - i) with (S (j - S i)) by lia.
      cbn [firstn nth_error forallb]. rewrite E. exact IH.
    + rewrite Nat.sub_diag. cbn. auto.
Qed.

Lemma quoteLoop_closed (q : ascii) (pre post : gostring) (i : nat) :
  ~ In q pre -> quoteLoop q (pre ++ q :: post) i = i + length pre + 1.
Proof.
  revert i; induction pre as [|c pre IH]; intros i Hn; cbn [app quoteLoop].
  - rewrite Ascii.eqb_refl. cbn. lia.
  - destruct (Ascii.eqb c q) eqn:E.
    + apply Ascii.eqb_eq in E. exfalso. apply Hn. now left.
    + rewrite IH; [cbn; lia|]. intro H. apply Hn. now right.
Qed.

(** The kind the classifier gives by the first byte of a literal that the
    scanner can extract. *)
Lemma tokenTypeOf_digit (c : ascii) (w : gostring) :
  isDigit c = true -> tokenTypeOf (c :: w) = Ret INT.
Proof.
  destruct c as [[] [] [] [] [] [] [] []]; vm_compute; intro H;
    try discriminate H; reflexivity.
Qed.

Lemma tokenTypeOf_letter (c : ascii) (w : gostring) :
  isLetter c || Ascii.eqb c "_" = true -> tokenTypeOf (c :: w) = Ret IDENT.
Proof.
  destruct c as [[] [] [] [] [] [] [] []]; vm_compute; intro H;
    try discriminate H; reflexivity.
Qed.

Lemma tokenTypeOf_quote (c : ascii) (w : gostring) :
  Ascii.eqb c DQUOTE || Ascii.eqb c SQUOTE = true ->
  tokenTypeOf (c :: w) = Ret ILLEGAL.
Proof.
  destruct c as [[] [] [] [] [] [] [] []]; vm_compute; intro H;
    try discriminate H; reflexivity.
Qed.

(** The turn of the column loop on a byte of a literal class: the literal
    passes the [TrimSpace] guard and one token is appended. *)
Lemma scanStep_literal (lines : list gostring) (line : gostring)
  (l : DraskenLexer) (tokens : list Token) (c : ascii) (w : gostring)
  (i : nat) (k : TokenType) :
  nth_error line (columnPosition l) = Some c ->
  isWhitespace c = false -> Ascii.eqb c BACKTICK = false ->
  noOtherClass c = false ->
  generateLiteral l line = Ret (c :: w, setColumn l i) ->
  tokenTypeOf (c :: w) = Ret k ->
  scanStep lines line l tokens
  = Ret (setColumn l i,
         tokens ++ [mkToken k (c :: w) (columnPosition l) i (linePosition l)]).
Proof.
  intros Hn Hw Hb Hno Hgen Hk.
  destruct (classed_byte c Hw Hno) as (Hc & Hsp).
  unfold scanStep. rewrite (index_Ret _ _ _ Hn). cbn [bind].
  rewrite Hw, Hb, Hgen. cbn [bind].
  rewrite (TrimSpace_head c w Hsp Hc). cbn [negb].
  unfold GenerateNewToken. rewrite Hk. reflexivity.
Qed.

Lemma number_byte (c : ascii) :
  isDigit c || Ascii.eqb c DOTCH = true ->
  Ascii.eqb c DQUOTE || Ascii.eqb c SQUOTE = false
  /\ isWhitespace c = false
  /\ Ascii.eqb c BACKTICK = false
  /\ noOtherClass c = false.
Proof.
  destruct c as [[] [] [] [] [] [] [] []]; vm_compute; intro H;
    try discriminate H; repeat split.
Qed.

Lemma letter_byte (c : ascii) :
  isLetter c || Ascii.eqb c "_" = true ->
  Ascii.eqb c DQUOTE || Ascii.eqb c SQUOTE = false
  /\ isDigit c = false
  /\ Ascii.eqb c DOTCH = false
  /\ isWhitespace c = false
  /\ Ascii.eqb c BACKTICK = false
  /\ noOtherClass c = false.
Proof.
  destruct c as [[] [] [] [] [] [] [] []]; vm_compute; intro H;
    try discriminate H; repeat split.
Qed.

Lemma quote_byte (c : ascii) :
  Ascii.eqb c DQUOTE || Ascii.eqb c SQUOTE = true ->
  isWhitespace c = false
  /\ Ascii.eqb c BACKTICK = false
  /\ noOtherClass c = false.
Proof.
  destruct c as [[] [] [] [] [] [] [] []]; vm_compute; intro H;
    try discriminate H; repeat split.
Qed.

Lemma generateLiteral_number (l : DraskenLexer) (line : gostring) (c : ascii) :
  nth_error line (columnPosition l) = Some c ->
  isDigit c || (Ascii.eqb c DOTCH && nextIs isDigit line (columnPosition l)) = true ->
  let i := numberLoop (skipn (columnPosition l) line) false (columnPosition l) in
  generateLiteral l line = Ret (sub line (columnPosition l) i, setColumn l i)
  /\ columnPosition l < i <= length line.
Proof.
  intros Hn Enum i.
  assert (Hlt : columnPosition l < length line)
    by (apply nth_error_Some; congruence).
  assert (Hfirst : isDigit c || Ascii.eqb c DOTCH = true).
  { apply orb_true_iff in Enum as [H|H]; [now rewrite H|].
    apply andb_true_iff in H as [H _]. rewrite H. apply orb_true_r. }
  destruct (number_byte c Hfirst) as (Hq & _).
  pose proof (skipn_nth_error _ _ _ _ Hn) as Hsk.
  pose proof (numberLoop_first c (skipn (S (columnPosition l)) line)
                (columnPosition l) Hfirst) as B1.
  pose proof (numberLoop_bounds (c :: skipn (S (columnPosition l)) line)
                false (columnPosition l)) as B2.
  cbn [length] in B2. rewrite length_skipn in B2.
  unfold generateLiteral. rewrite (index_Ret _ _ _ Hn). cbn [bind].
  rewrite Hq, Enum. subst i. rewrite Hsk in *.
  rewrite slice_Ret by lia. cbn [bind]. unfold sub. rewrite Hsk.
  split; [reflexivity | lia].
Qed.

Lemma generateLiteral_ident (l : DraskenLexer) (line : gostring) (c : ascii) :
  nth_error line (columnPosition l) = Some c ->
  isLetter c || Ascii.eqb c "_" = true ->
  let i := identLoop (skipn (columnPosition l) line) (columnPosition l) in
  generateLiteral l line = Ret (sub line (columnPosition l) i, setColumn l i)
  /\ columnPosition l < i <= length line.
Proof.
  intros Hn Eid i.
  assert (Hlt : columnPosition l < length line)
    by (apply nth_error_Some; congruence).
  destruct (letter_byte c Eid) as (Hq & Hd & Hdot & _).
  pose proof (skipn_nth_error _ _ _ _ Hn) as Hsk.
  pose proof (identLoop_first c (skipn (S (columnPosition l)) line)
                (columnPosition l) Eid) as B1.
  pose proof (identLoop_bounds (c :: skipn (S (columnPosition l)) line)
                (columnPosition l)) as B2.
  cbn [length] in B2. rewrite length_skipn in B2.
  unfold generateLiteral. rewrite (index_Ret _ _ _ Hn). cbn [bind].
  rewrite Hq, Hd, Hdot, Eid. cbn [orb andb]. subst i. rewrite Hsk in *.
  rewrite slice_Ret by lia. cbn [bind]. unfold sub. rewrite Hsk.
  split; [reflexivity | lia].
Qed.

(* ------------------------------------------------------------------ *)
(** ** Further properties of [generateLiteral] and of the column loop *)

(** X1.  [generateLiteral] reads [line[l.columnPosition]]: with the column on
    the line it returns a non-empty literal and moves only the column, forward
    by at least one and never past the end of the line; with the column at or
    past the end of the line it panics. *)
Theorem X1_generateLiteral_progress :
  forall (l : DraskenLexer) (line : gostring),
    (columnPosition l < length line ->
     exists lit c',
       generateLiteral l line = Ret (lit, setColumn l c')
       /\ columnPosition l < c' <= length line
       /\ lit <> [])
    /\ (length line <= columnPosition l -> generateLiteral l line = Panic).
Proof.
  intros l line. split.
  - apply generateLiteral_ok.
  - intro H. unfold generateLiteral, index.
    apply nth_error_None in H. now rewrite H.
Qed.

Lemma X1_generateLiteral_progress_witness :
  (exists lit c',
      generateLiteral (setColumn (NewLexer [] []) 2) (str "a+b")
      = Ret (lit, setColumn (setColumn (NewLexer [] []) 2) c')
      /\ 2 < c' <= 3 /\ lit <> [])
  /\ generateLiteral (setColumn (NewLexer [] []) 3) (str "a+b") = Panic.
Proof.
  split.
  - apply (proj1 (X1_generateLiteral_progress
                    (setColumn (NewLexer [] []) 2) (str "a+b"))).
    cbn. lia.
  - apply (proj2 (X1_generateLiteral_progress
                    (setColumn (NewLexer [] []) 3) (str "a+b"))).
    cbn. lia.
Defined.

(** X2.  At a digit the column loop appends exactly one [INT] token whose
    literal is [line[start:i]]: digits with at most one decimal point.  The
    run is maximal: it ends at the end of the line, before a byte that is
    neither digit nor point, or before a second point. *)
Theorem X2_number_literal_is_one_INT_token :
  forall (lines : list gostring) (line : gostring) (l : DraskenLexer)
         (tokens : list Token) (c : ascii),
    nth_error line (columnPosition l) = Some c ->
    isDigit c = true ->
    exists i,
      scanStep lines line l tokens
      = Ret (setColumn l i,
             tokens ++ [mkToken INT (sub line (columnPosition l) i)
                          (columnPosition l) i (linePosition l)])
      /\ columnPosition l < i <= length line
      /\ forallb isNumberByte (sub line (columnPosition l) i) = true
      /\ dots (sub line (columnPosition l) i) <= 1
      /\ match nth_error line i with
         | None => True
         | Some d => isDigit d = false
                     /\ (d = DOTCH -> dots (sub line (columnPosition l) i) = 1)
         end.
Proof.
  intros lines line l tokens c Hn Hd.
  assert (Enum : isDigit c || (Ascii.eqb c DOTCH && nextIs isDigit line (columnPosition l)) = true)
    by (now rewrite Hd).
  assert (Hfirst : isDigit c || Ascii.eqb c DOTCH = true) by (now rewrite Hd).
  destruct (number_byte c Hfirst) as (_ & Hw & Hb & Hno).
  destruct (generateLiteral_number l line c Hn Enum) as (Hgen & B).
  pose proof (numberLoop_spec (skipn (columnPosition l) line) false
                (columnPosition l)) as S. cbn zeta in S.
  set (i := numberLoop _ _ _) in *. fold (sub line (columnPosition l) i) in S.
  rewrite nth_error_skipn in S.
  replace (columnPosition l + (i - columnPosition l)) with i in S by lia.
  exists i. destruct S as (F & D & N).
  split; [|split; [exact B|split; [exact F|split; [exact D|]]]].
  - rewrite (sub_cons line _ i c Hn) in * by lia.
    apply scanStep_literal; try assumption. now apply tokenTypeOf_digit.
  - destruct (nth_error line i); [|exact I].
    destruct N as (N1 & N2). split; [exact N1|].
    intro E. destruct (N2 E) as [H|H]; [discriminate H | exact H].
Qed.

Lemma X2_number_literal_is_one_INT_token_witness :
  exists i,
    scanStep [] (str "1.2.3") (NewLexer [] []) []
    = Ret (setColumn (NewLexer [] []) i,
           [mkToken INT (sub (str "1.2.3") 0 i) 0 i 0])
    /\ 0 < i <= 5
    /\ forallb isNumberByte (sub (str "1.2.3") 0 i) = true
    /\ dots (sub (str "1.2.3") 0 i) <= 1
    /\ match nth_error (str "1.2.3") i with
       | None => True
       | Some d => isDigit d = false
                   /\ (d = DOTCH -> dots (sub (str "1.2.3") 0 i) = 1)
       end.
Proof.
  exact (X2_number_literal_is_one_INT_token [] (str "1.2.3") (NewLexer [] [])
           [] "1"%char eq_refl eq_refl).
Defined.

(** X3.  At a letter or underscore the column loop appends exactly one
    [IDENT] token whose literal is the maximal run of letters, digits and
    underscores from the column: the run ends at the end of the line or
    before a byte of another kind. *)
Theorem X3_identifier_is_maximal_run :
  forall (lines : list gostring) (line : gostring) (l : DraskenLexer)
         (tokens : list Token) (c : ascii),
    nth_error line (columnPosition l) = Some c ->
    isLetter c || Ascii.eqb c "_" = true ->
    exists i,
      scanStep lines line l tokens
      = Ret (setColumn l i,
             tokens ++ [mkToken IDENT (sub line (columnPosition l) i)
                          (columnPosition l) i (linePosition l)])
      /\ columnPosition l < i <= length line
      /\ forallb isAlphanumericOrUnderscore (sub line (columnPosition l) i) = true
      /\ match nth_error line i with
         | None => True
         | Some d => isAlphanumericOrUnderscore d = false
         end.
Proof.
  intros lines line l tokens c Hn Eid.
  destruct (letter_byte c Eid) as (_ & _ & _ & Hw & Hb & Hno).
  destruct (generateLiteral_ident l line c Hn Eid) as (Hgen & B).
  pose proof (identLoop_spec (skipn (columnPosition l) line)
                (columnPosition l)) as S. cbn zeta in S.
  set (i := identLoop _ _) in *. fold (sub line (columnPosition l) i) in S.
  rewrite nth_error_skipn in S.
  replace (columnPosition l + (i - columnPosition l)) with i in S by lia.
  exists i. destruct S as (F & N).
  split; [|split; [exact B|split; [exact F|exact N]]].
  rewrite (sub_cons line _ i c Hn) in * by lia.
  apply scanStep_literal; try assumption. now apply tokenTypeOf_letter.
Qed.

Lemma X3_identifier_is_maximal_run_witness :
  exists i,
    scanStep [] (str "_a1+b") (NewLexer [] []) []
    = Ret (setColumn (NewLexer [] []) i,
           [mkToken IDENT (sub (str "_a1+b") 0 i) 0 i 0])
    /\ 0 < i <= 5
    /\ forallb isAlphanumericOrUnderscore (sub (str "_a1+b") 0 i) = true
    /\ match nth_error (str "_a1+b") i with
       | None => True
       | Some d => isAlphanumericOrUnderscore d = false
       end.
Proof.
  exact (X3_identifier_is_maximal_run [] (str "_a1+b") (NewLexer [] [])
           [] "_"%char eq_refl eq_refl).
Defined.

(** X4.  At a single or double quote the column loop appends exactly one
    token, of kind [ILLEGAL] (the classifier has no string kind for it), whose
    literal is a slice of the line: up to and including the next quote of the
    same sort when the line has one, and otherwise the whole rest of the
    line. *)
Theorem X4_quoted_literal_is_one_ILLEGAL_token :
  forall (lines : list gostring) (line : gostring) (l : DraskenLexer)
         (tokens : list Token) (q : ascii),
    nth_error line (columnPosition l) = Some q ->
    q = DQUOTE \/ q = SQUOTE ->
    exists i,
      scanStep lines line l tokens
      = Ret (setColumn l i,
             tokens ++ [mkToken ILLEGAL (sub line (columnPosition l) i)
                          (columnPosition l) i (linePosition l)])
      /\ columnPosition l < i <= length line
      /\ (forall pre post,
             skipn (S (columnPosition l)) line = pre ++ q :: post ->
             ~ In q pre ->
             sub line (columnPosition l) i = q :: pre ++ [q])
      /\ (~ In q (skipn (S (columnPosition l)) line) ->
          sub line (columnPosition l) i = skipn (columnPosition l) line).
Proof.
  intros lines line l tokens q Hn Hq.
  assert (Eq : Ascii.eqb q DQUOTE || Ascii.eqb q SQUOTE = true)
    by (destruct Hq as [-> | ->]; reflexivity).
  destruct (quote_byte q Eq) as (Hw & Hb & Hno).
  destruct (generateLiteral_quoted l line q Hn Hq) as (i & Hgen & B & U).
  fold (sub line (columnPosition l) i) in Hgen.
  exists i. split; [|split; [exact B|split]].
  - rewrite (sub_cons line _ i q Hn) in * by lia.
    apply scanStep_literal; try assumption. now apply tokenTypeOf_quote.
  - intros pre post Hsplit Hpre.
    assert (Ei : i = S (columnPosition l) + length pre + 1).
    { pose proof Hgen as Hgen'. unfold generateLiteral in Hgen'.
      rewrite (index_Ret _ _ _ Hn) in Hgen'. cbn [bind] in Hgen'.
      rewrite Eq, Nat.add_1_r, Hsplit, quoteLoop_closed in Hgen' by assumption.
      cbn [columnPosition setColumn] in Hgen'.
      destruct (slice line (columnPosition l)
                  (S (columnPosition l) + length pre + 1)); try discriminate.
      cbn [bind] in Hgen'. injection Hgen' as _ E. now symmetry. }
    rewrite (sub_cons line _ i q Hn) by lia. f_equal.
    unfold sub. rewrite Hsplit, Ei.
    replace (S (columnPosition l) + length pre + 1 - S (columnPosition l))
      with (length pre + 1) by lia.
    rewrite firstn_app, firstn_all2 by lia.
    replace (length pre + 1 - length pre) with 1 by lia. reflexivity.
  - intro Hnone. rewrite (U Hnone). unfold sub.
    apply firstn_all2. rewrite length_skipn. lia.
Qed.

Lemma X4_quoted_literal_is_one_ILLEGAL_token_witness :
  exists i,
    scanStep [] (str "'ab' c") (NewLexer [] []) []
    = Ret (setColumn (NewLexer [] []) i,
           [mkToken ILLEGAL (sub (str "'ab' c") 0 i) 0 i 0])
    /\ 0 < i <= 6
    /\ sub (str "'ab' c") 0 i = str "'ab'".
Proof.
  destruct (X4_quoted_literal_is_one_ILLEGAL_token [] (str "'ab' c")
              (NewLexer [] []) [] "'"%char eq_refl (or_intror eq_refl))
    as (i & E & B & Hclosed & _).
  exists i. split; [exact E|]. split; [exact B|].
  apply (Hclosed (str "ab") (str " c")); [reflexivity|].
  intros [H|[H|[]]]; discriminate H.
Defined.

(** X5.  A point followed by a digit starts a number literal: the column loop
    appends one token over at least two columns, made of digits and that one
    point, and its kind is [ILLEGAL], because the classifier looks at the
    first byte only.  Any other point is one [DOT] token over one column. *)
Theorem X5_leading_point :
  forall (lines : list gostring) (line : gostring) (l : DraskenLexer)
         (tokens : list Token),
    nth_error line (columnPosition l) = Some DOTCH ->
    (nextIs isDigit line (columnPosition l) = true ->
     exists i,
       scanStep lines line l tokens
       = Ret (setColumn l i,
              tokens ++ [mkToken ILLEGAL (sub line (columnPosition l) i)
                           (columnPosition l) i (linePosition l)])
       /\ columnPosition l + 2 <= i <= length line
       /\ forallb isNumberByte (sub line (columnPosition l) i) = true
       /\ dots (sub line (columnPosition l) i) = 1)
    /\ (nextIs isDigit line (columnPosition l) = false ->
        scanStep lines line l tokens
        = Ret (setColumn l (columnPosition l + 1),
               tokens ++ [mkToken DOT [DOTCH] (columnPosition l)
                            (columnPosition l + 1) (linePosition l)])).
Proof.
  intros lines line l tokens Hn. split; intro Hnext.
  - assert (Enum : isDigit DOTCH || (Ascii.eqb DOTCH DOTCH && nextIs isDigit line (columnPosition l)) = true)
      by (now rewrite Hnext).
    destruct (generateLiteral_number l line DOTCH Hn Enum) as (Hgen & B).
    pose proof (numberLoop_spec (skipn (columnPosition l) line) false
                  (columnPosition l)) as Sp. cbn zeta in Sp.
    set (i := numberLoop _ _ _) in *. fold (sub line (columnPosition l) i) in Sp.
    destruct Sp as (F & D & _).
    unfold nextIs in Hnext.
    destruct (nth_error line (S (columnPosition l))) as [d|] eqn:Ed;
      [|discriminate].
    assert (Hi : columnPosition l + 2 <= i).
    { subst i. rewrite (skipn_nth_error _ _ _ _ Hn).
      rewrite (skipn_nth_error _ _ _ _ Ed). cbn [numberLoop].
      replace (Ascii.eqb DOTCH DOTCH) with true by reflexivity.
      assert (Hd' : isDigit d || Ascii.eqb d DOTCH = true) by (now rewrite Hnext).
      pose proof (numberLoop_first d (skipn (S (S (columnPosition l))) line)
                    (S (columnPosition l)) Hd') as B1.
      assert (Edot : Ascii.eqb d DOTCH = false).
      { revert Hnext. clear. destruct d as [[] [] [] [] [] [] [] []];
          vm_compute; intro H; try discriminate H; reflexivity. }
      cbn [numberLoop] in B1 |- *. rewrite Edot in *.
      rewrite Hnext in *. cbn [negb] in *.
      pose proof (numberLoop_bounds (skipn (S (S (columnPosition l))) line)
                    true (S (S (columnPosition l)))). lia. }
    exists i. split; [|split; [lia|split; [exact F|]]].
    + rewrite (sub_cons line _ i DOTCH Hn) in * by lia.
      rewrite (sub_cons line _ i d Ed) in * by lia.
      apply scanStep_literal; try assumption; try reflexivity.
    + rewrite (sub_cons line _ i DOTCH Hn) in * by lia.
      unfold dots in *. cbn [filter] in *.
      replace (Ascii.eqb DOTCH DOTCH) with true in * by reflexivity.
      cbn [length] in *. lia.
  - apply (scanStep_literal lines line l tokens DOTCH [] (columnPosition l + 1) DOT);
      try assumption; try reflexivity.
    unfold generateLiteral. rewrite (index_Ret _ _ _ Hn). cbn [bind].
    rewrite Hnext. reflexivity.
Qed.

Lemma X5_leading_point_witness :
  (exists i,
      scanStep [] (str ".5x") (NewLexer [] []) []
      = Ret (setColumn (NewLexer [] []) i,
             [mkToken ILLEGAL (sub (str ".5x") 0 i) 0 i 0])
      /\ 2 <= i <= 3
      /\ forallb isNumberByte (sub (str ".5x") 0 i) = true
      /\ dots (sub (str ".5x") 0 i) = 1)
  /\ scanStep [] (str "a.b") (setColumn (NewLexer [] []) 1) []
     = Ret (setColumn (setColumn (NewLexer [] []) 1) 2,
            [mkToken DOT [DOTCH] 1 2 0]).
Proof.
  split.
  - apply (proj1 (X5_leading_point [] (str ".5x") (NewLexer [] []) [] eq_refl)).
    reflexivity.
  - apply (proj2 (X5_leading_point [] (str "a.b")
                    (setColumn (NewLexer [] []) 1) [] eq_refl)).
    reflexivity.
Defined.

(* ------------------------------------------------------------------ *)
(** ** Input without a back quote: the tokens tile the lines *)

Lemma sub_app (line : gostring) (lo mid hi : nat) :
  lo <= mid -> mid <= hi ->
  sub line lo hi = sub line lo mid ++ sub line mid hi.
Proof.
  intros H1 H2. unfold sub.
  replace (hi - lo) with ((mid - lo) + (hi - mid)) by lia.
  replace (skipn mid line) with (skipn (mid - lo) (skipn lo line))
    by (rewrite skipn_skipn; f_equal; lia).
  generalize (skipn lo line) as x. generalize (mid - lo) as a.
  induction a as [|a IH]; intro x; [reflexivity|].
  destruct x as [|y x]; cbn [Nat.add firstn skipn app].
  - now rewrite firstn_nil.
  - now rewrite IH.
Qed.

Lemma sub_skipn (line : gostring) (lo mid : nat) :
  lo <= mid -> skipn lo line = sub line lo mid ++ skipn mid line.
Proof.
  intro H. unfold sub.
  replace (skipn mid line) with (skipn (mid - lo) (skipn lo line))
    by (rewrite skipn_skipn; f_equal; lia).
  symmetry. apply firstn_skipn.
Qed.

Lemma sub_empty (line : gostring) (lo : nat) : sub line lo lo = [].
Proof. unfold sub. now rewrite Nat.sub_diag. Qed.

Lemma textOf_nonempty (w : gostring) : w <> [] -> textOf w <> [].
Proof.
  destruct w as [|c [|d w]]; intro H; [contradiction | | discriminate].
  apply byteToString_nonempty.
Qed.

(** Ignorable bytes before the first tile can be added to the tiling. *)
Lemma tiled_gap (line : gostring) (lp from from' : nat) (ts : list Token) :
  from <= from' ->
  forallb ignorable (sub line from from') = true ->
  tiled line lp from' ts -> tiled line lp from ts.
Proof.
  intros Hle Hgap Ht. destruct ts as [|t ts]; cbn [tiled] in *.
  - rewrite (sub_skipn line from from' Hle), forallb_app, Hgap. exact Ht.
  - destruct Ht as (L & Hs & G & B & Lit & K & Rest).
    split; [exact L|]. split; [lia|]. split.
    + rewrite (sub_app line from from' (Start t)) by lia.
      now rewrite forallb_app, Hgap, G.
    + repeat split; try assumption; lia.
Qed.

Lemma setColumn_same (l : DraskenLexer) : setColumn l (columnPosition l) = l.
Proof. now destruct l. Qed.

Lemma setColumn_twice (l : DraskenLexer) (a b : nat) :
  setColumn (setColumn l a) b = setColumn l b.
Proof. reflexivity. Qed.

(** One turn of the column loop at a byte other than a back quote: the bytes
    it consumes are one tile, or are ignorable. *)
Lemma scanStep_tile (lines : list gostring) (line : gostring)
  (l : DraskenLexer) (tokens : list Token) (c : ascii) :
  nth_error line (columnPosition l) = Some c ->
  Ascii.eqb c BACKTICK = false ->
  exists c',
    columnPosition l < c' <= length line
    /\ ((scanStep lines line l tokens = Ret (setColumn l c', tokens)
         /\ forallb ignorable (sub line (columnPosition l) c') = true)
        \/ (exists k,
              scanStep lines line l tokens
              = Ret (setColumn l c',
                     tokens ++ [mkToken k (textOf (sub line (columnPosition l) c'))
                                  (columnPosition l) c' (linePosition l)])
              /\ tokenTypeOf (textOf (sub line (columnPosition l) c')) = Ret k)).
Proof.
  intros Hn Hb.
  assert (Hlt : columnPosition l < length line)
    by (apply nth_error_Some; congruence).
  unfold scanStep. rewrite (index_Ret _ _ _ Hn). cbn [bind].
  destruct (isWhitespace c) eqn:Hw.
  { exists (columnPosition l + 1). split; [lia|]. left.
    split; [reflexivity|]. rewrite (sub_one _ _ _ Hn). cbn [forallb].
    unfold ignorable. now rewrite Hw. }
  rewrite Hb.
  destruct (generateLiteral_text l line c Hn) as (c' & E & B & Hone).
  rewrite E. cbn [bind columnPosition linePosition setColumn].
  exists c'. split; [exact B|].
  destruct (isEmpty (TrimSpace (textOf (sub line (columnPosition l) c')))) eqn:Et;
    cbn [negb].
  - left. split; [reflexivity|].
    destruct (noOtherClass c) eqn:Hno.
    + rewrite (Hone eq_refl) in *. rewrite (sub_one _ _ _ Hn) in *.
      cbn [textOf] in Et.
      destruct (fallback_byte c Hno) as (_ & _ & _ & _ & _ & _ & _ & _ & Htrim & _).
      cbn [forallb]. unfold ignorable. rewrite <- Htrim, Et.
      now rewrite orb_true_r.
    + destruct (classed_byte c Hw Hno) as (Hc & Hsp).
      rewrite (sub_cons line _ c' c Hn) in Et by lia.
      rewrite (textOf_ascii c _ Hc), (TrimSpace_head c _ Hsp Hc) in Et.
      discriminate Et.
  - right.
    assert (Hne : textOf (sub line (columnPosition l) c') <> []).
    { apply textOf_nonempty. rewrite (sub_cons line _ c' c Hn) by lia.
      discriminate. }
    destruct (tokenTypeOf_total _ Hne) as (k & Ek).
    exists k. unfold GenerateNewToken. rewrite Ek. split; reflexivity.
Qed.

Lemma scanLine_tiled (lines : list gostring) (line : gostring) (fuel : nat) :
  ~ In BACKTICK line ->
  forall (l : DraskenLexer) (tokens : list Token),
    columnPosition l <= length line ->
    length line - columnPosition l < fuel ->
    exists new,
      scanLine fuel lines line l tokens
      = Ret (setColumn l (length line), tokens ++ new)
      /\ tiled line (linePosition l) (columnPosition l) new.
Proof.
  intro Hnb. induction fuel as [|fuel IH]; intros l tokens Hle Hf; [lia|].
  cbn [scanLine]. destruct (columnPosition l <? length line) eqn:Ec.
  - apply Nat.ltb_lt in Ec.
    destruct (index_lt line _ Ec) as (c & Hn & _).
    assert (Hb : Ascii.eqb c BACKTICK = false).
    { apply not_true_is_false. intro H. apply Ascii.eqb_eq in H. subst c.
      apply Hnb. now apply nth_error_In with (columnPosition l). }
    destruct (scanStep_tile lines line l tokens c Hn Hb)
      as (c' & B & [(E & G)|(k & E & K)]); rewrite E; cbn [bind].
    + destruct (IH (setColumn l c') tokens) as (new & E2 & T2);
        [cbn; lia | cbn; lia |].
      rewrite setColumn_twice in E2. exists new. split; [exact E2|].
      cbn [linePosition columnPosition setColumn] in T2.
      apply tiled_gap with c'; [lia | exact G | exact T2].
    + destruct (IH (setColumn l c')
                  (tokens ++ [mkToken k (textOf (sub line (columnPosition l) c'))
                                (columnPosition l) c' (linePosition l)]))
        as (new & E2 & T2); [cbn; lia | cbn; lia |].
      rewrite setColumn_twice in E2.
      exists (mkToken k (textOf (sub line (columnPosition l) c'))
                (columnPosition l) c' (linePosition l) :: new).
      split; [rewrite E2, <- app_assoc; reflexivity|].
      cbn [linePosition columnPosition setColumn] in T2.
      cbn [tiled Line Start End_ Literal Type_].
      rewrite sub_empty. repeat split; try assumption; try lia.
  - apply Nat.ltb_ge in Ec. assert (Heq : columnPosition l = length line) by lia.
    exists []. rewrite app_nil_r, <- Heq, setColumn_same.
    split; [reflexivity|]. cbn [tiled]. rewrite Heq.
    now rewrite skipn_all.
Qed.

Lemma scanLines_tiled (lines : list gostring) (fuel : nat) :
  (forall line, In line lines -> ~ In BACKTICK line) ->
  forall (l : DraskenLexer) (tokens : list Token),
    linePosition l <= length lines ->
    length lines - linePosition l < fuel ->
    exists new,
      scanLines fuel lines l tokens
      = Ret (setLine
               (setColumn l (finalColumn (commentPrefixes l)
                               (skipn (linePosition l) lines) (columnPosition l)))
               (length lines),
             tokens ++ new)
      /\ tiledLines (commentPrefixes l) (skipn (linePosition l) lines)
           (linePosition l) new.
Proof.
  intro Hnb. induction fuel as [|fuel IH]; intros l tokens Hle Hf; [lia|].
  cbn [scanLines]. destruct (linePosition l <? length lines) eqn:Ec.
  - apply Nat.ltb_lt in Ec.
    destruct (nth_error lines (linePosition l)) as [line|] eqn:Hn;
      [|apply nth_error_None in Hn; lia].
    rewrite (skipn_nth_error _ _ _ _ Hn). cbn [finalColumn tiledLines].
    unfold lineStep. rewrite Hn.
    change (shouldSkipLine l line) with (skipped (commentPrefixes l) line).
    destruct (skipped (commentPrefixes l) line) eqn:Hskip; cbn [bind].
    + destruct (IH (setLine l (linePosition l + 1)) tokens) as (new & E & T);
        [cbn; lia | cbn; lia |].
      cbn [linePosition columnPosition commentPrefixes setLine] in T.
      rewrite Nat.add_1_r in T.
      exists new. split; [rewrite E; destruct l; cbn; rewrite Nat.add_1_r; reflexivity|].
      exists [], new. repeat split. exact T.
    + destruct (scanLine_tiled lines line (lineFuel lines line (setColumn l 0))
                  (Hnb line (nth_error_In _ _ Hn)) (setColumn l 0) tokens)
        as (here & E1 & T1).
      { cbn. lia. }
      { unfold lineFuel. apply Nat.lt_succ_r. apply Nat.le_add_l. }
      rewrite E1. cbn [bind].
      cbn [linePosition columnPosition setColumn] in T1.
      destruct (IH (setLine (setColumn (setColumn l 0) (length line))
                      (linePosition (setColumn (setColumn l 0) (length line)) + 1))
                  (tokens ++ here)) as (later & E2 & T2);
        [cbn; lia | cbn; lia |].
      cbn [linePosition columnPosition commentPrefixes setLine setColumn] in T2.
      rewrite Nat.add_1_r in T2.
      exists (here ++ later).
      split; [rewrite app_assoc, E2; destruct l; cbn; rewrite Nat.add_1_r; reflexivity|].
      exists here, later. repeat split; assumption.
  - apply Nat.ltb_ge in Ec. assert (Heq : linePosition l = length lines) by lia.
    exists []. rewrite app_nil_r, Heq, skipn_all. cbn [finalColumn tiledLines].
    split; [rewrite <- Heq; destruct l; reflexivity | reflexivity].
Qed.

(** The scan of an input without a back quote: the tokens before [EOF] tile
    the lines, and [EOF] is at the final column on the line after the last. *)
Lemma tokenize_tiled (src : gostring) (prefixes : list gostring) :
  ~ In BACKTICK src ->
  exists front,
    tokenize src prefixes
    = Ret (front ++ [mkToken EOF []
                       (finalColumn prefixes (Split src) 0)
                       (finalColumn prefixes (Split src) 0)
                       (length (Split src))])
    /\ tiledLines prefixes (Split src) 0 front.
Proof.
  intro Hnb. unfold tokenize, GenerateTokens.
  cbn [input linePosition NewLexer].
  destruct (scanLines_tiled (Split src) (S (length (Split src) - 0)))
    with (l := NewLexer src prefixes) (tokens := @nil Token)
    as (front & E & T).
  { intros line Hl Hc. apply Hnb. now apply Split_In with line. }
  { cbn. lia. }
  { cbn. lia. }
  rewrite E. cbn [bind]. exists front. split; [reflexivity | exact T].
Qed.

Lemma Split_length (s : gostring) :
  length (Split s) = S (length (filter (Ascii.eqb LF) s)).
Proof.
  induction s as [|c s IH]; [reflexivity|]. cbn [Split filter].
  rewrite (Ascii.eqb_sym LF c). destruct (Ascii.eqb c LF).
  - cbn [length]. now rewrite IH.
  - destruct (Split s) as [|l0 ls]; cbn [length] in *; [discriminate IH | exact IH].
Qed.

(** X6.  When the input holds no back quote, the tokens before [EOF] tile the
    lines in order: a skipped line has no token; on every other line each
    token spans at least one column inside the line, starts at or after the
    end of the token before it, carries the text of the bytes it spans and
    the kind the classifier gives to that text, and every byte of the line
    outside the tokens is white space or a byte whose literal [TrimSpace]
    empties. *)
Theorem X6_tokens_tile_the_lines :
  forall (src : gostring) (prefixes : list gostring),
    ~ In BACKTICK src ->
    exists front last,
      tokenize src prefixes = Ret (front ++ [last])
      /\ Type_ last = EOF
      /\ tiledLines prefixes (Split src) 0 front.
Proof.
  intros src prefixes Hnb.
  destruct (tokenize_tiled src prefixes Hnb) as (front & E & T).
  eexists front, _. split; [exact E|]. split; [reflexivity | exact T].
Qed.

Lemma X6_tokens_tile_the_lines_witness :
  exists front last,
    tokenize (str "a = 1;" ++ [LF] ++ str "# b") [str "#"]
    = Ret (front ++ [last])
    /\ Type_ last = EOF
    /\ tiledLines [str "#"] (Split (str "a = 1;" ++ [LF] ++ str "# b")) 0 front.
Proof.
  apply X6_tokens_tile_the_lines. vm_compute. intro H.
  repeat (destruct H as [H|H]; [discriminate H|]). exact H.
Defined.

(** X7.  When the input holds no back quote, the [EOF] token has [Line] equal
    to the number of lines of the input (one more than its line feeds), and
    [Start] and [End] equal to the length of the last line that is not
    skipped as a comment (0 when every line is skipped): a skipped line
    leaves the column cursor where it was. *)
Theorem X7_EOF_position :
  forall (src : gostring) (prefixes : list gostring),
    ~ In BACKTICK src ->
    exists front,
      tokenize src prefixes
      = Ret (front ++ [mkToken EOF []
                         (finalColumn prefixes (Split src) 0)
                         (finalColumn prefixes (Split src) 0)
                         (S (length (filter (Ascii.eqb LF) src)))]).
Proof.
  intros src prefixes Hnb.
  destruct (tokenize_tiled src prefixes Hnb) as (front & E & _).
  exists front. now rewrite <- Split_length.
Qed.

Lemma X7_EOF_position_witness :
  exists front,
    tokenize (str "ab" ++ [LF] ++ str "// c") [str "//"]
    = Ret (front ++ [mkToken EOF [] 2 2 2]).
Proof.
  apply (X7_EOF_position (str "ab" ++ [LF] ++ str "// c") [str "//"]).
  vm_compute. intro H.
  repeat (destruct H as [H|H]; [discriminate H|]). exact H.
Defined.

Lemma StronglySorted_app (A : Type) (R : A -> A -> Prop) (a b : list A) :
  StronglySorted R a -> StronglySorted R b ->
  (forall x y, In x a -> In y b -> R x y) ->
  StronglySorted R (a ++ b).
Proof.
  intros Ha Hb Hab. induction a as [|x a IH]; [exact Hb|].
  apply StronglySorted_inv in Ha as [Ha Hx]. cbn [app]. constructor.
  - apply IH; [exact Ha|]. intros u v Hu Hv. apply Hab; [now right | exact Hv].
  - apply Forall_app. split; [exact Hx|].
    apply Forall_forall. intros y Hy. apply Hab; [now left | exact Hy].
Qed.

Lemma tiled_sorted (line : gostring) (lp : nat) (ts : list Token) :
  forall from,
    tiled line lp from ts ->
    StronglySorted before ts
    /\ Forall (fun t => Line t = lp /\ from <= Start t) ts.
Proof.
  induction ts as [|t ts IH]; intros from Ht.
  - split; constructor.
  - cbn [tiled] in Ht. destruct Ht as (L & Hs & _ & B & _ & _ & Rest).
    destruct (IH _ Rest) as (Srt & All). split.
    + constructor; [exact Srt|].
      eapply Forall_impl; [|exact All].
      intros t' (L' & S'). right. split; [congruence | lia].
    + constructor; [now split|].
      eapply Forall_impl; [|exact All]. intros t' (L' & S'). split; [exact L' | lia].
Qed.

Lemma tiledLines_sorted (prefixes : list gostring) (lines : list gostring) :
  forall (lp : nat) (ts : list Token),
    tiledLines prefixes lines lp ts ->
    StronglySorted before ts /\ Forall (fun t => lp <= Line t) ts.
Proof.
  induction lines as [|line rest IH]; intros lp ts Ht; cbn [tiledLines] in Ht.
  - subst ts. split; constructor.
  - destruct Ht as (here & later & -> & Hh & Hl).
    destruct (IH _ _ Hl) as (Sl & Al).
    assert (Hhere : StronglySorted before here
                    /\ Forall (fun t => Line t = lp) here).
    { destruct (skipped prefixes line).
      - subst here. split; constructor.
      - destruct (tiled_sorted line lp here 0 Hh) as (Sh & Ah).
        split; [exact Sh|]. eapply Forall_impl; [|exact Ah]. now intros t [H _]. }
    destruct Hhere as (Sh & Ah). split.
    + apply StronglySorted_app; [exact Sh | exact Sl |].
      intros x y Hx Hy. left.
      rewrite Forall_forall in Ah, Al.
      rewrite (Ah x Hx). specialize (Al y Hy). lia.
    + apply Forall_app. split.
      * eapply Forall_impl; [|exact Ah]. intros t Ht. cbn in Ht. lia.
      * eapply Forall_impl; [|exact Al]. intros t Ht. cbn in Ht. lia.
Qed.

(** X8.  When the input holds no back quote, the tokens before [EOF] come in
    source order and never overlap: of any two tokens the earlier one is on
    an earlier line, or on the same line and ends at or before the column
    where the later one starts. *)
Theorem X8_tokens_in_source_order :
  forall (src : gostring) (prefixes : list gostring),
    ~ In BACKTICK src ->
    exists front last,
      tokenize src prefixes = Ret (front ++ [last])
      /\ Type_ last = EOF
      /\ StronglySorted before front.
Proof.
  intros src prefixes Hnb.
  destruct (tokenize_tiled src prefixes Hnb) as (front & E & T).
  eexists front, _. split; [exact E|]. split; [reflexivity|].
  now apply tiledLines_sorted in T.
Qed.

Lemma X8_tokens_in_source_order_witness :
  exists front last,
    tokenize (str "x==y" ++ [LF] ++ str "z") [] = Ret (front ++ [last])
    /\ Type_ last = EOF
    /\ StronglySorted before front.
Proof.
  apply X8_tokens_in_source_order. vm_compute. intro H.
  repeat (destruct H as [H|H]; [discriminate H|]). exact H.
Defined.

Lemma ignorable_invisible (b : ascii) :
  isASCII b = true -> ignorable b = true -> visible b = false.
Proof.
  destruct b as [[] [] [] [] [] [] [] []]; vm_compute; intros H1 H2;
    try discriminate H1; try discriminate H2; reflexivity.
Qed.

Lemma filter_invisible (w : gostring) :
  forallb isASCII w = true -> forallb ignorable w = true ->
  filter visible w = [].
Proof.
  induction w as [|b w IH]; [reflexivity|]. cbn [forallb filter].
  intros Ha Hi. apply andb_true_iff in Ha as [Ha1 Ha2].
  apply andb_true_iff in Hi as [Hi1 Hi2].
  rewrite (ignorable_invisible b Ha1 Hi1). now apply IH.
Qed.

Lemma textOf_all_ascii (w : gostring) :
  forallb isASCII w = true -> textOf w = w.
Proof.
  destruct w as [|c w]; [reflexivity|]. cbn [forallb]. intro H.
  apply andb_true_iff in H as [H _]. apply textOf_ascii.
  now apply N.ltb_lt.
Qed.

Lemma forallb_skipn (A : Type) (p : A -> bool) (n : nat) (w : list A) :
  forallb p w = true -> forallb p (skipn n w) = true.
Proof.
  intro H. rewrite <- (firstn_skipn n w), forallb_app in H.
  now apply andb_true_iff in H as [_ H].
Qed.

Lemma forallb_firstn (A : Type) (p : A -> bool) (n : nat) (w : list A) :
  forallb p w = true -> forallb p (firstn n w) = true.
Proof.
  intro H. rewrite <- (firstn_skipn n w), forallb_app in H.
  now apply andb_true_iff in H as [H _].
Qed.

Lemma forallb_sub (p : ascii -> bool) (line : gostring) (lo hi : nat) :
  forallb p line = true -> forallb p (sub line lo hi) = true.
Proof. intro H. unfold sub. now apply forallb_firstn, forallb_skipn. Qed.

Lemma tiled_recover (line : gostring) (lp : nat) (ts : list Token) :
  forallb isASCII line = true ->
  forall from,
    tiled line lp from ts ->
    filter visible (concat (map Literal ts)) = filter visible (skipn from line).
Proof.
  intro Ha. induction ts as [|t ts IH]; intros from Ht; cbn [tiled] in Ht.
  - cbn. symmetry. apply filter_invisible; [now apply forallb_skipn | exact Ht].
  - destruct Ht as (_ & Hs & G & B & Lit & _ & Rest).
    cbn [map concat]. rewrite filter_app, (IH _ Rest), Lit.
    rewrite textOf_all_ascii by (now apply forallb_sub).
    rewrite (sub_skipn line from (Start t) Hs), filter_app.
    rewrite (filter_invisible _ (forallb_sub _ _ _ _ Ha) G). cbn [app].
    rewrite (sub_skipn line (Start t) (End_ t)) by lia.
    now rewrite filter_app.
Qed.

Lemma tiledLines_recover (prefixes : list gostring) (lines : list gostring) :
  Forall (fun line => forallb isASCII line = true) lines ->
  forall (lp : nat) (ts : list Token),
    tiledLines prefixes lines lp ts ->
    filter visible (concat (map Literal ts))
    = filter visible (concat (keptLines prefixes lines)).
Proof.
  induction lines as [|line rest IH]; intros Ha lp ts Ht; cbn [tiledLines] in Ht.
  - now subst ts.
  - apply Forall_cons_iff in Ha as [Ha1 Ha2].
    destruct Ht as (here & later & -> & Hh & Hl).
    rewrite map_app, concat_app, filter_app, (IH Ha2 _ _ Hl).
    unfold keptLines. cbn [filter]. destruct (skipped prefixes line); cbn [negb].
    + now subst here.
    + cbn [concat]. rewrite filter_app. f_equal.
      now rewrite (tiled_recover line lp here Ha1 0 Hh).
Qed.

(** X9.  When the input is ASCII and holds no back quote, the literals of the
    result, concatenated in order, are the lines that are not skipped as
    comments, concatenated in order, up to ASCII white space (space, tab,
    line feed, vertical tab, form feed, carriage return): no other byte of
    such a line is lost, added or moved. *)
Theorem X9_literals_recover_the_kept_lines :
  forall (src : gostring) (prefixes : list gostring),
    ~ In BACKTICK src ->
    forallb isASCII src = true ->
    exists tokens,
      tokenize src prefixes = Ret tokens
      /\ filter visible (concat (map Literal tokens))
         = filter visible (concat (keptLines prefixes (Split src))).
Proof.
  intros src prefixes Hnb Ha.
  destruct (tokenize_tiled src prefixes Hnb) as (front & E & T).
  eexists. split; [exact E|].
  rewrite map_app, concat_app, filter_app. cbn [map concat filter Literal app].
  rewrite app_nil_r. apply tiledLines_recover with 0; [|exact T].
  apply Forall_forall. intros line Hl. apply forallb_forall. intros b Hb.
  rewrite forallb_forall in Ha. apply Ha. now apply Split_In with line.
Qed.

Lemma X9_literals_recover_the_kept_lines_witness :
  exists tokens,
    tokenize (str "x = 'a b';" ++ [LF] ++ str "# y") [str "#"] = Ret tokens
    /\ filter visible (concat (map Literal tokens))
       = filter visible
           (concat (keptLines [str "#"]
                      (Split (str "x = 'a b';" ++ [LF] ++ str "# y")))).
Proof.
  apply X9_literals_recover_the_kept_lines; [|reflexivity].
  vm_compute. intro H.
  repeat (destruct H as [H|H]; [discriminate H|]). exact H.
Defined.

(* ------------------------------------------------------------------ *)
(** ** Back-quoted strings, on the line the column loop is scanning *)

Lemma rawLine_closed (pre post content : gostring) (col : nat) :
  ~ In BACKTICK pre ->
  rawLine (pre ++ BACKTICK :: post) content col
  = (content ++ pre ++ [BACKTICK], col + length pre + 1, true).
Proof.
  revert content col; induction pre as [|c pre IH]; intros content col Hn;
    cbn [app rawLine].
  - cbn. f_equal. f_equal. lia.
  - destruct (Ascii.eqb c BACKTICK) eqn:E.
    + apply Ascii.eqb_eq in E. exfalso. apply Hn. now left.
    + rewrite IH by (intro H; apply Hn; now right).
      rewrite <- app_assoc. cbn [app length]. f_equal. f_equal. lia.
Qed.

Lemma rawLine_open (rest content : gostring) (col : nat) :
  ~ In BACKTICK rest ->
  rawLine rest content col = (content ++ rest, col + length rest, false).
Proof.
  revert content col; induction rest as [|c rest IH]; intros content col Hn;
    cbn [rawLine].
  - rewrite app_nil_r. cbn. f_equal. f_equal. lia.
  - destruct (Ascii.eqb c BACKTICK) eqn:E.
    + apply Ascii.eqb_eq in E. exfalso. apply Hn. now left.
    + rewrite IH by (intro H; apply Hn; now right).
      rewrite <- app_assoc. cbn [app length]. f_equal. f_equal. lia.
Qed.

Lemma rawLoop_open (remaining : list gostring) :
  Forall (fun line => ~ In BACKTICK line) remaining ->
  forall (content : gostring) (linePos : nat),
    rawLoop remaining content linePos 0
    = (content ++ withLineFeeds remaining, linePos + length remaining, 0).
Proof.
  induction remaining as [|line rest IH]; intros Hn content linePos.
  - cbn. rewrite app_nil_r. f_equal. f_equal. lia.
  - apply Forall_cons_iff in Hn as [H1 H2]. cbn [rawLoop skipn].
    rewrite (rawLine_open line content 0 H1), (IH H2).
    unfold withLineFeeds. cbn [map concat length].
    rewrite <- !app_assoc. f_equal. f_equal. lia.
Qed.

Lemma setLine_same (l : DraskenLexer) : setLine l (linePosition l) = l.
Proof. now destruct l. Qed.

(** X10.  A back quote met on the line under the line cursor, with a closing
    back quote later on that line: the column loop appends one [STRING] token
    whose literal runs from the opening to the first closing back quote, both
    included, with [End] just past the closing one; the line cursor does not
    move and the scan goes on after the closing back quote. *)
Theorem X10_raw_string_closed_on_its_line :
  forall (lines : list gostring) (line : gostring) (l : DraskenLexer)
         (tokens : list Token) (pre post : gostring),
    nth_error lines (linePosition l) = Some line ->
    nth_error line (columnPosition l) = Some BACKTICK ->
    skipn (S (columnPosition l)) line = pre ++ BACKTICK :: post ->
    ~ In BACKTICK pre ->
    scanStep lines line l tokens
    = Ret (setColumn l (columnPosition l + length pre + 2),
           tokens ++ [mkToken STRING (BACKTICK :: pre ++ [BACKTICK])
                        (columnPosition l)
                        (columnPosition l + length pre + 2)
                        (linePosition l)]).
Proof.
  intros lines line l tokens pre post Hl Hn Hsplit Hpre.
  unfold scanStep. rewrite (index_Ret _ _ _ Hn). cbn [bind].
  replace (isWhitespace BACKTICK) with false by reflexivity.
  replace (Ascii.eqb BACKTICK BACKTICK) with true by reflexivity.
  rewrite (skipn_nth_error _ _ _ _ Hl). cbn [rawLoop].
  rewrite Nat.add_1_r, Hsplit, (rawLine_closed pre post _ _ Hpre).
  cbn [columnPosition linePosition setColumn setLine app].
  replace (S (columnPosition l) + length pre + 1)
    with (columnPosition l + length pre + 2) by lia.
  destruct l; reflexivity.
Qed.

Lemma X10_raw_string_closed_on_its_line_witness :
  scanStep [str "a `b c` d"] (str "a `b c` d")
    (setColumn (NewLexer [] []) 2) []
  = Ret (setColumn (setColumn (NewLexer [] []) 2) 7,
         [mkToken STRING (str "`b c`") 2 7 0]).
Proof.
  apply (X10_raw_string_closed_on_its_line [str "a `b c` d"] (str "a `b c` d")
           (setColumn (NewLexer [] []) 2) [] (str "b c") (str " d"));
    try reflexivity.
  intros [H|[H|[H|[]]]]; discriminate H.
Defined.

(** X11.  A back quote met on the line under the line cursor, with no other
    back quote in the rest of the input: the column loop appends one [STRING]
    token whose literal is the back quote, the rest of the line and every
    following line, each followed by a line feed (also the last one); its
    [End] is 0, and the line cursor is left past the last line with the
    column at 0. *)
Theorem X11_raw_string_unterminated :
  forall (lines : list gostring) (line : gostring) (l : DraskenLexer)
         (tokens : list Token),
    nth_error lines (linePosition l) = Some line ->
    nth_error line (columnPosition l) = Some BACKTICK ->
    ~ In BACKTICK (skipn (S (columnPosition l)) line) ->
    Forall (fun later => ~ In BACKTICK later) (skipn (S (linePosition l)) lines) ->
    scanStep lines line l tokens
    = Ret (setColumn (setLine l (length lines)) 0,
           tokens ++ [mkToken STRING
                        (BACKTICK :: skipn (S (columnPosition l)) line ++ [LF]
                                  ++ withLineFeeds (skipn (S (linePosition l)) lines))
                        (columnPosition l) 0 (linePosition l)]).
Proof.
  intros lines line l tokens Hl Hn Hrest Hlater.
  assert (Hlp : linePosition l < length lines)
    by (apply nth_error_Some; congruence).
  unfold scanStep. rewrite (index_Ret _ _ _ Hn). cbn [bind].
  replace (isWhitespace BACKTICK) with false by reflexivity.
  replace (Ascii.eqb BACKTICK BACKTICK) with true by reflexivity.
  rewrite (skipn_nth_error _ _ _ _ Hl). cbn [rawLoop].
  rewrite Nat.add_1_r, (rawLine_open _ _ _ Hrest), (rawLoop_open _ Hlater).
  rewrite length_skipn.
  replace (S (linePosition l) + (length lines - S (linePosition l)))
    with (length lines) by lia.
  cbn [columnPosition linePosition setColumn setLine app].
  rewrite <- !app_assoc. reflexivity.
Qed.

Lemma X11_raw_string_unterminated_witness :
  scanStep [str "x `a"; str "b"] (str "x `a") (setColumn (NewLexer [] []) 2) []
  = Ret (setColumn (setLine (setColumn (NewLexer [] []) 2) 2) 0,
         [mkToken STRING (str "`a" ++ [LF] ++ str "b" ++ [LF]) 2 0 0]).
Proof.
  apply (X11_raw_string_unterminated [str "x `a"; str "b"] (str "x `a")
           (setColumn (NewLexer [] []) 2) []); try reflexivity.
  - intros [H|[]]; discriminate H.
  - repeat constructor. intros [H|[]]; discriminate H.
Defined.

(* ------------------------------------------------------------------ *)
(** ** Comment prefixes *)

Lemma scanLines_all_skipped (lines : list gostring) (fuel : nat) :
  forall (l : DraskenLexer) (tokens : list Token),
    (forall line, In line (skipn (linePosition l) lines) ->
                  skipped (commentPrefixes l) line = true) ->
    linePosition l <= length lines ->
    length lines - linePosition l < fuel ->
    scanLines fuel lines l tokens = Ret (setLine l (length lines), tokens).
Proof.
  induction fuel as [|fuel IH]; intros l tokens Hall Hle Hf; [lia|].
  cbn [scanLines]. destruct (linePosition l <? length lines) eqn:Ec.
  - apply Nat.ltb_lt in Ec.
    destruct (nth_error lines (linePosition l)) as [line|] eqn:Hn;
      [|apply nth_error_None in Hn; lia].
    rewrite (skipn_nth_error _ _ _ _ Hn) in Hall.
    unfold lineStep. rewrite Hn.
    change (shouldSkipLine l line) with (skipped (commentPrefixes l) line).
    rewrite (Hall line (or_introl eq_refl)). cbn [bind].
    rewrite IH.
    + reflexivity.
    + cbn [linePosition commentPrefixes setLine]. rewrite Nat.add_1_r.
      intros x Hx. apply Hall. now right.
    + cbn. lia.
    + cbn. lia.
  - apply Nat.ltb_ge in Ec. assert (Heq : linePosition l = length lines) by lia.
    now rewrite <- Heq, setLine_same.
Qed.

Lemma HasPrefix_nil (s : gostring) : HasPrefix s [] = true.
Proof. now destruct s. Qed.

(** X12.  When every line of the input is skipped as a comment, the result is
    the [EOF] token alone, at column 0 on the line after the last.  That is
    so for every input when the prefix list holds the empty string, which is
    a prefix of every trimmed line. *)
Theorem X12_all_lines_skipped :
  forall (src : gostring) (prefixes : list gostring),
    ((forall line, In line (Split src) -> skipped prefixes line = true) ->
     tokenize src prefixes = Ret [mkToken EOF [] 0 0 (length (Split src))])
    /\ (In [] prefixes ->
        tokenize src prefixes = Ret [mkToken EOF [] 0 0 (length (Split src))]).
Proof.
  intros src prefixes.
  assert (H : (forall line, In line (Split src) -> skipped prefixes line = true) ->
              tokenize src prefixes
              = Ret [mkToken EOF [] 0 0 (length (Split src))]).
  { intro Hall. unfold tokenize, GenerateTokens.
    cbn [input linePosition NewLexer].
    rewrite scanLines_all_skipped; [reflexivity | exact Hall | cbn; lia | cbn; lia]. }
  split; [exact H|].
  intro Hin. apply H. intros line _. unfold skipped.
  apply existsb_exists. exists []. split; [exact Hin | apply HasPrefix_nil].
Qed.

Lemma X12_all_lines_skipped_witness :
  tokenize (str "# a" ++ [LF] ++ str "  # b") [str "#"]
  = Ret [mkToken EOF [] 0 0 2]
  /\ tokenize (str "x = 1") [str "//"; []] = Ret [mkToken EOF [] 0 0 1].
Proof.
  split.
  - apply (proj1 (X12_all_lines_skipped (str "# a" ++ [LF] ++ str "  # b")
                    [str "#"])).
    intros line [<-|[<-|[]]]; reflexivity.
  - apply (proj2 (X12_all_lines_skipped (str "x = 1") [str "//"; []])).
    right; left; reflexivity.
Defined.

Lemma TrimLeftSpace_indent (indent line : gostring) :
  forallb asciiSpace indent = true ->
  TrimLeftSpace (indent ++ line) = TrimLeftSpace line.
Proof.
  induction indent as [|b indent IH]; [reflexivity|].
  cbn [forallb app TrimLeftSpace]. intro H.
  apply andb_true_iff in H as [Hb Hi]. rewrite Hb. now apply IH.
Qed.

(** X13.  [shouldSkipLine] ignores indentation: ASCII white space (space,
    tab, vertical tab, form feed, carriage return) put before a line does not
    change whether the line is skipped, so an indented comment line is
    skipped like the same line without indentation. *)
Theorem X13_shouldSkipLine_ignores_indentation :
  forall (l : DraskenLexer) (indent line : gostring),
    forallb asciiSpace indent = true ->
    shouldSkipLine l (indent ++ line) = shouldSkipLine l line.
Proof.
  intros l indent line H. unfold shouldSkipLine, TrimSpace.
  now rewrite (TrimLeftSpace_indent indent line H).
Qed.

Lemma X13_shouldSkipLine_ignores_indentation_witness :
  shouldSkipLine (NewLexer [] [str "//"]) ([SPACE; TAB] ++ str "// note")
  = shouldSkipLine (NewLexer [] [str "//"]) (str "// note").
Proof.
  apply X13_shouldSkipLine_ignores_indentation. reflexivity.
Defined.

(** X14.  The tests of the dispatch overlap in one case only.  On a point
    with a digit after it, the number test and the punctuation test both
    pass, and no other; there the order decides, and the number test comes
    first.  On every other byte at most one of the tests for white space,
    back quote, quote, number, letter or underscore, operator and punctuation
    passes. *)
Theorem X14_dispatch_tests_overlap_only_on_point_digit :
  forall (line : gostring) (start : nat) (c : ascii),
    if Ascii.eqb c DOTCH && nextIs isDigit line start
    then classTests line start c
         = [false; false; false; true; false; false; true]
    else length (filter (fun b : bool => b) (classTests line start c)) <= 1.
Proof.
  intros line start c. unfold classTests.
  destruct (nextIs isDigit line start);
    destruct c as [[] [] [] [] [] [] [] []]; vm_compute; first [reflexivity | lia].
Qed.

(* ------------------------------------------------------------------ *)
(** ** The receiver after [GenerateTokens] *)

(** The scan writes the two cursors of the lexer and nothing else. *)
Lemma scanStep_cursors (lines : list gostring) (line : gostring)
  (l l' : DraskenLexer) (tokens tokens' : list Token) :
  scanStep lines line l tokens = Ret (l', tokens') ->
  exists c n, l' = setLine (setColumn l c) n.
Proof.
  unfold scanStep. destruct (nth_error line (columnPosition l)) as [c|] eqn:Hn;
    [rewrite (index_Ret _ _ _ Hn) | unfold index; rewrite Hn; discriminate].
  cbn [bind]. destruct (isWhitespace c).
  { intro H. injection H as <- _.
    exists (columnPosition l + 1), (linePosition l). now destruct l. }
  destruct (Ascii.eqb c BACKTICK).
  { destruct (rawLoop _ _ _ _) as [[content lp'] col'].
    intro H. injection H as <- _. exists col', lp'. now destruct l. }
  assert (Hlt : columnPosition l < length line)
    by (apply nth_error_Some; congruence).
  destruct (generateLiteral_ok l line Hlt) as (lit & c' & E & _).
  rewrite E. cbn [bind].
  destruct (negb (isEmpty (TrimSpace lit))).
  - destruct (GenerateNewToken _ _ _ _); cbn [bind]; try discriminate.
    intro H. injection H as <- _. exists c', (linePosition l). now destruct l.
  - intro H. injection H as <- _. exists c', (linePosition l). now destruct l.
Qed.

Lemma scanLine_cursors (lines : list gostring) (line : gostring) (fuel : nat) :
  forall (l l' : DraskenLexer) (tokens tokens' : list Token),
    scanLine fuel lines line l tokens = Ret (l', tokens') ->
    exists c n, l' = setLine (setColumn l c) n.
Proof.
  induction fuel as [|fuel IH]; intros l l' tokens tokens'; cbn [scanLine];
    [discriminate|].
  destruct (columnPosition l <? length line).
  - destruct (scanStep lines line l tokens) as [[l1 t1]| |] eqn:E1;
      cbn [bind]; try discriminate.
    intro E2. apply scanStep_cursors in E1 as (c1 & n1 & ->).
    apply IH in E2 as (c2 & n2 & ->). now exists c2, n2.
  - intro H. injection H as <- _.
    exists (columnPosition l), (linePosition l). now destruct l.
Qed.

Lemma scanLines_cursors (lines : list gostring) (fuel : nat) :
  forall (l l' : DraskenLexer) (tokens tokens' : list Token),
    scanLines fuel lines l tokens = Ret (l', tokens') ->
    (exists c n, l' = setLine (setColumn l c) n)
    /\ length lines <= linePosition l'.
Proof.
  induction fuel as [|fuel IH]; intros l l' tokens tokens'; cbn [scanLines];
    [discriminate|].
  destruct (linePosition l <? length lines) eqn:Ec.
  - unfold lineStep. destruct (nth_error lines (linePosition l)) as [line|];
      [|discriminate].
    destruct (shouldSkipLine l line); cbn [bind].
    + intro E. apply IH in E as ((c & n & ->) & Hle).
      split; [now exists c, n | exact Hle].
    + destruct (scanLine _ lines line (setColumn l 0) tokens)
        as [[l1 t1]| |] eqn:E1; cbn [bind]; try discriminate.
      intro E. apply scanLine_cursors in E1 as (c1 & n1 & ->).
      apply IH in E as ((c & n & ->) & Hle).
      split; [now exists c, n | exact Hle].
  - apply Nat.ltb_ge in Ec. intro H. injection H as <- _.
    split; [|exact Ec]. exists (columnPosition l), (linePosition l).
    now destruct l.
Qed.

(** X15.  [GenerateTokens] does not rewind the lexer: called again on the
    receiver it left, it returns the single [EOF] token that ended the first
    result, and leaves the receiver as it is. *)
Theorem X15_second_GenerateTokens_gives_EOF_only :
  forall (l l' : DraskenLexer) (tokens : list Token),
    GenerateTokens l = Ret (tokens, l') ->
    exists front eof,
      tokens = front ++ [eof]
      /\ Type_ eof = EOF
      /\ GenerateTokens l' = Ret ([eof], l').
Proof.
  intros l l' tokens. unfold GenerateTokens at 1.
  destruct (scanLines _ (Split (input l)) l []) as [[l1 front]| |] eqn:E;
    cbn [bind]; try discriminate.
  intro H. injection H as <- ->.
  apply scanLines_cursors in E as ((c & n & ->) & Hle).
  eexists front, _. split; [reflexivity|]. split; [reflexivity|].
  unfold GenerateTokens.
  cbn [input linePosition columnPosition setLine setColumn] in *.
  replace (length (Split (input l)) - n) with 0 by lia.
  cbn [scanLines linePosition setLine].
  apply Nat.ltb_ge in Hle. rewrite Hle. reflexivity.
Qed.

Lemma X15_second_GenerateTokens_gives_EOF_only_witness :
  exists front eof,
    [mkToken IDENT (str "x") 0 1 0; mkToken EOF [] 1 1 1] = front ++ [eof]
    /\ Type_ eof = EOF
    /\ GenerateTokens (setLine (setColumn (NewLexer (str "x") []) 1) 1)
       = Ret ([eof], setLine (setColumn (NewLexer (str "x") []) 1) 1).
Proof.
  apply (X15_second_GenerateTokens_gives_EOF_only (NewLexer (str "x") [])).
  vm_compute. reflexivity.
Defined.

(* ------------------------------------------------------------------ *)
(** ** Size of the result *)

Lemma tiled_count (line : gostring) (lp : nat) (ts : list Token) :
  forall from, tiled line lp from ts -> length ts <= length line - from.
Proof.
  induction ts as [|t ts IH]; intros from Ht; cbn [length]; [lia|].
  cbn [tiled] in Ht. destruct Ht as (_ & Hs & _ & B & _ & _ & Rest).
  specialize (IH _ Rest). lia.
Qed.

Lemma tiledLines_count (prefixes : list gostring) (lines : list gostring) :
  forall (lp : nat) (ts : list Token),
    tiledLines prefixes lines lp ts ->
    length ts <= list_sum (map (@length ascii) lines).
Proof.
  induction lines as [|line rest IH]; intros lp ts Ht; cbn [tiledLines] in Ht.
  - subst ts. cbn. lia.
  - destruct Ht as (here & later & -> & Hh & Hl).
    specialize (IH _ _ Hl). rewrite length_app.
    unfold list_sum in *. cbn [map fold_right].
    destruct (skipped prefixes line).
    + subst here. cbn [length]. lia.
    + apply tiled_count in Hh. lia.
Qed.

Lemma Split_total (s : gostring) :
  list_sum (map (@length ascii) (Split s)) + length (filter (Ascii.eqb LF) s)
  = length s.
Proof.
  induction s as [|c s IH]; [reflexivity|]. cbn [Split filter length].
  rewrite (Ascii.eqb_sym LF c). destruct (Ascii.eqb c LF).
  - unfold list_sum in *. cbn [map fold_right length]. lia.
  - unfold list_sum in *.
    destruct (Split s) as [|l0 ls]; cbn [map fold_right length] in *; lia.
Qed.

(** X16.  When the input holds no back quote, the result has at most one
    token per byte that is not a line feed, plus the [EOF] token. *)
Theorem X16_token_count_bound :
  forall (src : gostring) (prefixes : list gostring),
    ~ In BACKTICK src ->
    exists tokens,
      tokenize src prefixes = Ret tokens
      /\ length tokens + length (filter (Ascii.eqb LF) src) <= length src + 1.
Proof.
  intros src prefixes Hnb.
  destruct (tokenize_tiled src prefixes Hnb) as (front & E & T).
  eexists. split; [exact E|].
  apply tiledLines_count in T. pose proof (Split_total src).
  rewrite length_app. cbn [length]. lia.
Qed.

Lemma X16_token_count_bound_witness :
  exists tokens,
    tokenize (str "a+b" ++ [LF] ++ str "c") [] = Ret tokens
    /\ length tokens + length (filter (Ascii.eqb LF) (str "a+b" ++ [LF] ++ str "c"))
       <= length (str "a+b" ++ [LF] ++ str "c") + 1.
Proof.
  apply X16_token_count_bound. vm_compute. intro H.
  repeat (destruct H as [H|H]; [discriminate H|]). exact H.
Defined.

(* ------------------------------------------------------------------ *)
(** ** Every input: the line cursor only moves forward *)

Lemma inSpan_widen (a b a' b' : nat) (t : Token) :
  a' <= a -> b <= b' -> inSpan a b t -> inSpan a' b' t.
Proof. intros H1 H2 (H & R). split; [lia | exact R]. Qed.

Lemma scanStep_span (lines : list gostring) (line : gostring)
  (l : DraskenLexer) (tokens : list Token) :
  columnPosition l < length line ->
  linePosition l <= length lines ->
  exists l' new,
    scanStep lines line l tokens = Ret (l', tokens ++ new)
    /\ linePosition l <= linePosition l' <= length lines
    /\ Forall (inSpan (linePosition l) (linePosition l')) new
    /\ StronglySorted lineOrdered new
    /\ lineFuel lines line l' < lineFuel lines line l.
Proof.
  intros Hlt Hlp. destruct (index_lt line _ Hlt) as (c & Hn & Hi).
  unfold scanStep. rewrite Hi. cbn [bind].
  destruct (isWhitespace c).
  { exists (setColumn l (columnPosition l + 1)), []. rewrite app_nil_r.
    split; [reflexivity|]. cbn [linePosition setColumn].
    split; [lia|]. split; [constructor|]. split; [constructor|].
    unfold lineFuel; cbn [linePosition columnPosition setColumn]. lia. }
  destruct (Ascii.eqb c BACKTICK).
  { destruct (rawLoop_spec (skipn (linePosition l) lines) [BACKTICK]
                (linePosition l) (columnPosition l + 1))
      as (sf & lp' & col' & E & B1 & B2).
    rewrite E. cbn [columnPosition setColumn setLine].
    assert (Hlp' : linePosition l <= lp' <= length lines).
    { rewrite length_skipn in B1. destruct B2 as [[-> _]|[H _]]; lia. }
    eexists _, [_]. split; [reflexivity|].
    cbn [linePosition setColumn setLine].
    split; [exact Hlp'|]. split; [|split].
    - constructor; [|constructor]. split; [cbn; lia|]. split; [discriminate|].
      intros _. now exists sf.
    - repeat constructor.
    - apply lineFuel_raw; [assumption | assumption |].
      destruct B2 as [[-> H]|[H _]]; [left; split; [reflexivity | lia] | now right]. }
  destruct (generateLiteral_ok l line Hlt) as (lit & c' & E & B & Hne).
  rewrite E. cbn [bind columnPosition linePosition setColumn].
  destruct (isEmpty (TrimSpace lit)); cbn [negb].
  - exists (setColumn l c'), []. rewrite app_nil_r.
    split; [reflexivity|]. cbn [linePosition setColumn].
    split; [lia|]. split; [constructor|]. split; [constructor|].
    unfold lineFuel; cbn [linePosition columnPosition setColumn]. lia.
  - destruct (tokenTypeOf_total _ Hne) as (t & Et).
    unfold GenerateNewToken. rewrite Et. cbn [bind].
    eexists _, [_]. split; [reflexivity|]. cbn [linePosition setColumn].
    split; [lia|]. split; [|split].
    + constructor; [|constructor]. split; [cbn; lia|]. split; [exact Hne|].
      cbn. intros ->. now apply tokenTypeOf_kind in Et.
    + repeat constructor.
    + unfold lineFuel; cbn [linePosition columnPosition setColumn]. lia.
Qed.

Lemma span_app (a b c : nat) (xs ys : list Token) :
  a <= b -> b <= c ->
  Forall (inSpan a b) xs -> StronglySorted lineOrdered xs ->
  Forall (inSpan b c) ys -> StronglySorted lineOrdered ys ->
  Forall (inSpan a c) (xs ++ ys) /\ StronglySorted lineOrdered (xs ++ ys).
Proof.
  intros Hab Hbc Fx Sx Fy Sy. split.
  - apply Forall_app. split.
    + eapply Forall_impl; [|exact Fx]. intro t. apply inSpan_widen; lia.
    + eapply Forall_impl; [|exact Fy]. intro t. apply inSpan_widen; lia.
  - apply StronglySorted_app; [exact Sx | exact Sy |].
    intros x y Hx Hy. rewrite Forall_forall in Fx, Fy.
    destruct (Fx x Hx) as (Bx & _). destruct (Fy y Hy) as (By & _).
    unfold lineOrdered. lia.
Qed.

Lemma scanLine_span (lines : list gostring) (line : gostring) (fuel : nat) :
  forall (l : DraskenLexer) (tokens : list Token),
    lineFuel lines line l <= fuel ->
    linePosition l <= length lines ->
    exists l' new,
      scanLine fuel lines line l tokens = Ret (l', tokens ++ new)
      /\ linePosition l <= linePosition l' <= length lines
      /\ Forall (inSpan (linePosition l) (linePosition l')) new
      /\ StronglySorted lineOrdered new.
Proof.
  induction fuel as [|fuel IH]; intros l tokens Hf Hlp.
  - unfold lineFuel in Hf; inversion Hf.
  - cbn [scanLine]. destruct (columnPosition l <? length line) eqn:Ec.
    + apply Nat.ltb_lt in Ec.
      destruct (scanStep_span lines line l tokens Ec Hlp)
        as (l1 & new1 & E1 & P1 & F1 & S1 & M1).
      rewrite E1. cbn [bind].
      destruct (IH l1 (tokens ++ new1)) as (l2 & new2 & E2 & P2 & F2 & S2);
        [lia | lia |].
      exists l2, (new1 ++ new2). rewrite E2, app_assoc.
      split; [reflexivity|]. split; [lia|].
      apply span_app with (linePosition l1); try assumption; lia.
    + exists l, []. rewrite app_nil_r. split; [reflexivity|].
      split; [lia|]. split; constructor.
Qed.

Lemma scanLines_span (lines : list gostring) (fuel : nat) :
  forall (l : DraskenLexer) (tokens : list Token),
    length lines - linePosition l < fuel ->
    linePosition l <= length lines ->
    exists l' new,
      scanLines fuel lines l tokens = Ret (l', tokens ++ new)
      /\ length lines <= linePosition l' <= length lines + 1
      /\ Forall (inSpan (linePosition l) (length lines)) new
      /\ Forall (fun t => Line t < linePosition l') new
      /\ StronglySorted lineOrdered new.
Proof.
  induction fuel as [|fuel IH]; intros l tokens Hf Hlp; [lia|].
  cbn [scanLines]. destruct (linePosition l <? length lines) eqn:Ec.
  - apply Nat.ltb_lt in Ec. unfold lineStep.
    destruct (nth_error lines (linePosition l)) as [line|] eqn:Hn;
      [|apply nth_error_None in Hn; lia].
    assert (Hstep : exists l1 new1,
               (if shouldSkipLine l line
                then Ret (setLine l (linePosition l + 1), tokens)
                else '(l0, tokens0) <-
                       scanLine (lineFuel lines line (setColumn l 0)) lines line
                         (setColumn l 0) tokens ;;
                     Ret (setLine l0 (linePosition l0 + 1), tokens0))
               = Ret (setLine l1 (linePosition l1 + 1), tokens ++ new1)
               /\ linePosition l <= linePosition l1 <= length lines
               /\ Forall (inSpan (linePosition l) (linePosition l1)) new1
               /\ StronglySorted lineOrdered new1).
    { destruct (shouldSkipLine l line).
      - exists l, []. rewrite app_nil_r. split; [reflexivity|].
        split; [lia|]. split; constructor.
      - destruct (scanLine_span lines line _ (setColumn l 0) tokens (le_n _))
          as (l1 & new1 & E1 & P1 & F1 & S1); [cbn; lia|].
        rewrite E1. cbn [bind]. exists l1, new1.
        cbn [linePosition setColumn] in *. repeat split; try assumption; lia. }
    destruct Hstep as (l1 & new1 & E1 & P1 & F1 & S1). rewrite E1. cbn [bind].
    destruct (Nat.le_gt_cases (linePosition l1 + 1) (length lines)) as [Hin|Hout].
    + destruct (IH (setLine l1 (linePosition l1 + 1)) (tokens ++ new1))
        as (l2 & new2 & E2 & P2 & F2 & L2 & S2); [cbn; lia | cbn; lia |].
      cbn [linePosition setLine] in F2.
      exists l2, (new1 ++ new2). rewrite E2, app_assoc.
      split; [reflexivity|]. split; [exact P2|].
      destruct (span_app (linePosition l) (linePosition l1 + 1) (length lines)
                  new1 new2) as (F & S); try assumption; try lia.
      { eapply Forall_impl; [|exact F1]. intro t. apply inSpan_widen; lia. }
      split; [exact F|]. split; [|exact S].
      apply Forall_app. split; [|exact L2].
      eapply Forall_impl; [|exact F1]. intros t ((_ & Ht) & _).
      cbn beta in *. lia.
    + destruct fuel as [|fuel']; [lia|]. cbn [scanLines linePosition setLine].
      replace (linePosition l1 + 1 <? length lines) with false
        by (symmetry; apply Nat.ltb_ge; lia).
      exists (setLine l1 (linePosition l1 + 1)), new1.
      split; [reflexivity|]. cbn [linePosition setLine].
      split; [lia|]. split; [|split; [|exact S1]].
      * eapply Forall_impl; [|exact F1]. intro t. apply inSpan_widen; lia.
      * eapply Forall_impl; [|exact F1]. intros t ((_ & Ht) & _).
        cbn beta in *. lia.
  - apply Nat.ltb_ge in Ec. exists l, []. rewrite app_nil_r.
    split; [reflexivity|]. split; [lia|]. repeat split; constructor.
Qed.

Lemma tokenize_span (src : gostring) (prefixes : list gostring) :
  exists front l',
    tokenize src prefixes
    = Ret (front ++ [mkToken EOF [] (columnPosition l') (columnPosition l')
                       (linePosition l')])
    /\ length (Split src) <= linePosition l' <= length (Split src) + 1
    /\ Forall (inSpan 0 (length (Split src))) front
    /\ Forall (fun t => Line t < linePosition l') front
    /\ StronglySorted lineOrdered front.
Proof.
  unfold tokenize, GenerateTokens. cbn [input linePosition NewLexer].
  destruct (scanLines_span (Split src) (S (length (Split src) - 0))
              (NewLexer src prefixes) [])
    as (l' & front & E & P & F & L & S); [cbn; lia | cbn; lia |].
  rewrite E. cbn [bind]. exists front, l'. cbn [linePosition NewLexer] in F.
  repeat split; try assumption; lia.
Qed.

(** X17.  For every input, the [Line] fields never decrease along the result,
    the [EOF] token included; every token before [EOF] has [Line] at most the
    number of lines of the input, and the [Line] of [EOF] is that number or
    one more. *)
Theorem X17_lines_never_decrease :
  forall (src : gostring) (prefixes : list gostring),
  exists front eof,
    tokenize src prefixes = Ret (front ++ [eof])
    /\ Type_ eof = EOF
    /\ StronglySorted lineOrdered (front ++ [eof])
    /\ Forall (fun t => Line t <= length (Split src)) front
    /\ length (Split src) <= Line eof <= length (Split src) + 1.
Proof.
  intros src prefixes.
  destruct (tokenize_span src prefixes) as (front & l' & E & P & F & L & S).
  eexists front, _. split; [exact E|]. split; [reflexivity|].
  cbn [Line]. split; [|split; [|exact P]].
  - apply StronglySorted_app; [exact S | repeat constructor |].
    intros x y Hx [<-|[]]. rewrite Forall_forall in L.
    specialize (L x Hx). unfold lineOrdered. cbn [Line]. lia.
  - eapply Forall_impl; [|exact F]. intros t ((_ & H) & _). exact H.
Qed.

(** X18.  For every input, only the final [EOF] token has an empty literal:
    every token before it has a non-empty literal, and the literal of a
    [STRING] token begins with a back quote. *)
Theorem X18_only_EOF_has_empty_literal :
  forall (src : gostring) (prefixes : list gostring),
  exists front eof,
    tokenize src prefixes = Ret (front ++ [eof])
    /\ Type_ eof = EOF
    /\ Literal eof = []
    /\ Forall (fun t => Literal t <> []
                        /\ (Type_ t = STRING ->
                            exists w, Literal t = BACKTICK :: w)) front.
Proof.
  intros src prefixes.
  destruct (tokenize_span src prefixes) as (front & l' & E & _ & F & _).
  eexists front, _. split; [exact E|]. split; [reflexivity|].
  split; [reflexivity|].
  eapply Forall_impl; [|exact F]. intros t (_ & H). exact H.
Qed.

Lemma X18_only_EOF_has_empty_literal_witness :
  exists front eof,
    tokenize (str "`a` b") [] = Ret (front ++ [eof])
    /\ Type_ eof = EOF
    /\ Literal eof = []
    /\ Forall (fun t => Literal t <> []
                        /\ (Type_ t = STRING ->
                            exists w, Literal t = BACKTICK :: w)) front.
Proof. exact (X18_only_EOF_has_empty_literal (str "`a` b") []). Defined.

Lemma symbol_byte (c : ascii) :
  isOperator c || isPunctuation c = true ->
  isWhitespace c = false
  /\ Ascii.eqb c BACKTICK = false
  /\ noOtherClass c = false
  /\ Ascii.eqb c DQUOTE || Ascii.eqb c SQUOTE = false
  /\ isDigit c = false
  /\ isLetter c || Ascii.eqb c "_" = false
  /\ byteToString c = [c]
  /\ exists k, tokenTypeOf [c] = Ret k /\ lookupSymbol [c] = Some k.
Proof.
  destruct c as [[] [] [] [] [] [] [] []]; vm_compute; intro H;
    try discriminate H; repeat split; eexists; split; reflexivity.
Qed.

(** X19.  At an operator or punctuation byte that is neither an [=] followed
    by [=] nor a point followed by a digit, the column loop appends exactly
    one token over one column, whose literal is that byte and whose kind is
    the one the symbol table gives to it. *)
Theorem X19_one_byte_symbol_token :
  forall (lines : list gostring) (line : gostring) (l : DraskenLexer)
         (tokens : list Token) (c : ascii),
    nth_error line (columnPosition l) = Some c ->
    isOperator c || isPunctuation c = true ->
    ~ (c = EQCH /\ nth_error line (S (columnPosition l)) = Some EQCH) ->
    ~ (c = DOTCH /\ nextIs isDigit line (columnPosition l) = true) ->
    exists k,
      lookupSymbol [c] = Some k
      /\ scanStep lines line l tokens
         = Ret (setColumn l (columnPosition l + 1),
                tokens ++ [mkToken k [c] (columnPosition l)
                             (columnPosition l + 1) (linePosition l)]).
Proof.
  intros lines line l tokens c Hn Hsym Hneq Hndot.
  destruct (symbol_byte c Hsym)
    as (Hw & Hb & Hno & Hq & Hd & Hl & Hstr & k & Hk & Htab).
  exists k. split; [exact Htab|].
  apply scanStep_literal; try assumption.
  unfold generateLiteral. rewrite (index_Ret _ _ _ Hn). cbn [bind].
  rewrite Hq, Hd, Hl, Hstr. cbn [orb].
  assert (E1 : Ascii.eqb c DOTCH && nextIs isDigit line (columnPosition l) = false).
  { apply not_true_is_false. intro H. apply andb_true_iff in H as [H1 H2].
    apply Hndot. split; [now apply Ascii.eqb_eq | exact H2]. }
  assert (E2 : Ascii.eqb c EQCH
               && nextIs (fun c0 => Ascii.eqb c0 EQCH) line (columnPosition l)
               = false).
  { apply not_true_is_false. intro H. apply andb_true_iff in H as [H1 H2].
    apply Hneq. split; [now apply Ascii.eqb_eq | now apply nextIs_eq]. }
  rewrite E1, E2. destruct (isOperator c); [reflexivity|].
  destruct (isPunctuation c); reflexivity.
Qed.

Lemma X19_one_byte_symbol_token_witness :
  exists k,
    lookupSymbol [";"%char] = Some k
    /\ scanStep [] (str "a;") (setColumn (NewLexer [] []) 1) []
       = Ret (setColumn (setColumn (NewLexer [] []) 1) 2,
              [mkToken k [";"%char] 1 2 0]).
Proof.
  apply (X19_one_byte_symbol_token [] (str "a;") (setColumn (NewLexer [] []) 1)
           [] ";"%char eq_refl eq_refl).
  - intros [H _]. discriminate H.
  - intros [H _]. discriminate H.
Defined.
